(** * eshopco-latency: the metrics calculator of [api/index.py]

    The service loads a static telemetry dataset (region name -> list of
    records with a latency and an uptime) and answers a metrics query with,
    per requested region, the mean latency, the 95th percentile of the
    latency, the mean uptime and the number of records above a threshold.

    Numbers.  The source computes with numpy on float64.  The embedding is
    written over an interface [Arith] of the arithmetic operations the code
    performs, and the numbers of the program are its instance [binary64]:
    Rocq's primitive floats, that is IEEE 754 binary64 with
    round-to-nearest-even, the arithmetic of the Python process.  What
    depends on the control flow alone is proved for every instance of
    [Arith]; what depends on the numbers is proved for [binary64], from the
    specification of the primitive floats.  The rationals [Q] serve to say
    what number a float is. *)

From Stdlib Require Import ZArith QArith Qround Qabs Qpower Lia Lqa Floats Uint63.
From Stdlib Require Import Sorted Permutation.
From stdpp Require Import base option list strings gmap fin_maps.

Local Open Scope Z_scope.

(** * Part 1: the program *)

(** ** The arithmetic of the numbers *)

Class Arith (F : Type) := {
  of_Z : Z -> F;            (* int -> float conversion, and the literals *)
  add : F -> F -> F;
  sub : F -> F -> F;
  mul : F -> F -> F;
  div : F -> F -> F;
  ltb : F -> F -> bool;     (* x < y *)
  leb : F -> F -> bool;     (* x <= y *)
  floor : F -> Z;           (* np.floor(x).astype(np.intp) *)
  rint : F -> F;            (* np.rint: nearest integer, ties to even *)
}.

(** *** IEEE 754 binary64: the primitive floats *)

Module Binary64.

(** Conversion of a Python int to float64 (integers below 2^63 in absolute
    value; the lengths and literals of the program are far below). *)
Definition of_Z (z : Z) : float :=
  match z with
  | Z0 => PrimFloat.zero
  | Zpos _ => PrimFloat.of_uint63 (Uint63.of_Z z)
  | Zneg p => PrimFloat.opp (PrimFloat.of_uint63 (Uint63.of_Z (Zpos p)))
  end.

(** The largest integer not above a float, read off its sign, mantissa and
    exponent (0 for inf and nan, which have no integer part). *)
Definition floor (x : float) : Z :=
  match Prim2SF x with
  | S754_finite s m e =>
      let a := (if 0 <=? e then Z.shiftl (Zpos m) e else Z.shiftr (Zpos m) (- e)) in
      let integral := (0 <=? e) || (Z.shiftl a (- e) =? Zpos m) in
      if s then (if integral then - a else - a - 1) else a
  | _ => 0
  end.

(** 2^52: from here on every float64 is an integer. *)
Definition two52 : float := 4503599627370496%float.

(** Nearest integer, ties to even: below 2^52, adding and then subtracting
    2^52 rounds the fraction away in round-to-nearest-even; the sign is put
    back afterwards, so that rint(-0.2) is -0.0. *)
Definition rint (x : float) : float :=
  if PrimFloat.ltb (PrimFloat.abs x) two52 then
    let r := PrimFloat.sub (PrimFloat.add (PrimFloat.abs x) two52) two52 in
    if PrimFloat.ltb x PrimFloat.zero || PrimFloat.Leibniz.eqb x PrimFloat.neg_zero
    then PrimFloat.opp r else r
  else x.

End Binary64.

#[export] Instance binary64 : Arith float := {|
  of_Z := Binary64.of_Z;
  add := PrimFloat.add;
  sub := PrimFloat.sub;
  mul := PrimFloat.mul;
  div := PrimFloat.div;
  ltb := PrimFloat.ltb;
  leb := PrimFloat.leb;
  floor := Binary64.floor;
  rint := Binary64.rint;
|}.

(** ** Exceptions

    What the code of [calculate_metrics] can raise: a [KeyError] from
    [record["latency_ms"]] or [record["uptime"]], and the mean or percentile
    of an empty array, which numpy does not define (a warning and nan for
    the mean, an index error or nan for the percentile, by version). *)

Inductive exn : Type :=
  | KeyError (key : string)
  | EmptyArray.

Inductive result (A : Type) : Type :=
  | Ok (a : A)
  | Raise (e : exn).
Arguments Ok {A} a.
Arguments Raise {A} e.

#[export] Instance result_ret : MRet result := fun _ a => Ok a.
#[export] Instance result_bind : MBind result := fun _ _ f m =>
  match m with
  | Ok a => f a
  | Raise e => Raise e
  end.

(** ** Data model *)

(** A record of the dataset as [json.load] gives it: a dict from field name
    to number. *)
Abbreviation Dict F := (gmap string F).

(** [record[key]] *)
Definition getitem {F} (record : Dict F) (key : string) : result F :=
  match record !! key with
  | Some v => Ok v
  | None => Raise (KeyError key)
  end.

(** class RegionMetrics(BaseModel) *)
Record RegionMetrics (F : Type) : Type := {
  avg_latency : F;
  p95_latency : F;
  avg_uptime : F;
  breaches : Z;
}.
Arguments Build_RegionMetrics {F}.
Arguments avg_latency {F}.
Arguments p95_latency {F}.
Arguments avg_uptime {F}.
Arguments breaches {F}.

(** class MetricsRequest(BaseModel) *)
Record MetricsRequest (F : Type) : Type := {
  regions : list string;
  threshold_ms : F;
}.
Arguments Build_MetricsRequest {F}.
Arguments regions {F}.
Arguments threshold_ms {F}.

(** ** numpy and the builtins the calculator calls *)

Section Calculator.
Context {F : Type} `{Arith F}.

(** -0.0, with which numpy starts the sum of a short array. *)
Definition neg_zero : F := mul (of_Z (-1)) (of_Z 0).

(** The loop of numpy's [pairwise_sum] over whole blocks of 8 elements:
    r[j] += a[i + j] for each block, [r] being the 8 running sums; what is
    returned with them is the rest of the array. *)
Fixpoint add_blocks (blocks : nat) (r a : list F) : list F * list F :=
  match blocks with
  | O => (r, a)
  | S blocks' => add_blocks blocks' (zip_with add r (take 8 a)) (drop 8 a)
  end.

(** The unrolled sum of 8 to 128 elements: 8 running sums that start as the
    first 8 elements and take one element each from every further whole
    block, are added up as ((r0 + r1) + (r2 + r3)) + ((r4 + r5) + (r6 + r7)),
    and the elements after the last whole block are added one by one. *)
Definition unrolled_sum (a : list F) : F :=
  let '(r, rest) := add_blocks (length a / 8 - 1)%nat (take 8 a) (drop 8 a) in
  match r with
  | [r0; r1; r2; r3; r4; r5; r6; r7] =>
      fold_left add rest
        (add (add (add r0 r1) (add r2 r3)) (add (add r4 r5) (add r6 r7)))
  | _ => fold_left add a neg_zero
  end.

(** numpy's [pairwise_sum] (the inner loop of np.add.reduce on a contiguous
    float64 array): fewer than 8 elements are added in order onto -0.0, up
    to 128 elements go through the unrolled sum, and a longer array is split
    in two parts, the first of n/2 elements rounded down to a multiple of 8,
    which are summed the same way and added.  [fuel] bounds the depth of
    the recursion; the length of the array is more than enough. *)
Fixpoint pairwise_sum (fuel : nat) (a : list F) : F :=
  let n := length a in
  if (n <? 8)%nat then fold_left add a neg_zero
  else if (n <=? 128)%nat then unrolled_sum a
  else match fuel with
       | O => unrolled_sum a
       | S fuel' =>
           let n2 := (n / 2 - (n / 2) mod 8)%nat in
           add (pairwise_sum fuel' (take n2 a)) (pairwise_sum fuel' (drop n2 a))
       end.

(** np.add.reduce: the pairwise sum of the array, added to the initial
    value 0. *)
Definition np_sum (a : list F) : F := add (of_Z 0) (pairwise_sum (length a) a).

(** np.mean(a): the sum divided by the number of elements. *)
Definition np_mean (a : list F) : result F :=
  match a with
  | [] => Raise EmptyArray
  | _ :: _ => Ok (div (np_sum a) (of_Z (Z.of_nat (length a))))
  end.

(** np.isnan(x): a nan is the one number that is not below or equal to
    itself. *)
Definition isnan (x : F) : bool := negb (leb x x).

(** Ascending order (np.sort): insertion of each element in turn. *)
Fixpoint insert_sorted (x : F) (a : list F) : list F :=
  match a with
  | [] => [x]
  | y :: a' => if leb x y then x :: a else y :: insert_sorted x a'
  end.

Definition np_sort (a : list F) : list F := foldr insert_sorted [] a.

(** arr[i] with an index of Python: -1 is the last element. *)
Definition item (arr : list F) (i : Z) (default : F) : F :=
  nth (Z.to_nat (if i <? 0 then Z.of_nat (length arr) + i else i)) arr default.

(** numpy's [_lerp(a, b, t)]: a + (b - a) * t, and b - (b - a) * (1 - t)
    where t >= 0.5. *)
Definition lerp (a b t : F) : F :=
  let diff_b_a := sub b a in
  if leb (div (of_Z 1) (of_Z 2)) t
  then sub b (mul diff_b_a (sub (of_Z 1) t))
  else add a (mul diff_b_a t).

(** np.percentile(a, q) with the default method "linear", as numpy's
    [_quantile] computes it: the virtual index (n - 1) * (q / 100) in the
    sorted array; its floor and the next index, both set to -1 (the last
    element) where the virtual index is n - 1 or more, and to 0 where it is
    negative; gamma, the virtual index minus the previous index as just
    set; and the interpolation between the two elements by gamma.  An array
    that holds a nan has the nan as its percentile (the nans are sorted
    last, and numpy returns the last element when that is a nan). *)
Definition np_percentile (a : list F) (q : F) : result F :=
  match a with
  | [] => Raise EmptyArray
  | x0 :: _ =>
      Ok match List.find isnan a with
         | Some not_a_number => not_a_number
         | None =>
             let arr := np_sort a in
             let n := Z.of_nat (length a) in
             let quantile := div q (of_Z 100) in
             let virtual_index := mul (of_Z (n - 1)) quantile in
             let above := leb (of_Z (n - 1)) virtual_index in
             let below := ltb virtual_index (of_Z 0) in
             let previous_index :=
               if below then 0 else if above then -1 else floor virtual_index in
             let next_index :=
               if below then 0 else if above then -1 else floor virtual_index + 1 in
             let gamma := sub virtual_index (of_Z previous_index) in
             lerp (item arr previous_index x0) (item arr next_index x0) gamma
         end
  end.

(** round(x, 2) on a numpy float: np.round, that is
    rint(x * 10**2) / 10**2. *)
Definition round2 (x : F) : F := div (rint (mul x (of_Z 100))) (of_Z 100).

(** sum(1 for lat in latencies if lat > threshold_ms) *)
Definition count_breaches (latencies : list F) (threshold : F) : Z :=
  fold_left (fun acc lat => if ltb threshold lat then acc + 1 else acc) latencies 0.

(** ** calculate_metrics *)

Definition zero_metrics : RegionMetrics F :=
  {| avg_latency := of_Z 0; p95_latency := of_Z 0; avg_uptime := of_Z 0;
     breaches := 0 |}.

Definition calculate_metrics (data : list (Dict F)) (threshold : F)
  : result (RegionMetrics F) :=
  match data with
  | [] => Ok zero_metrics
  | _ :: _ =>
      latencies ← mapM (fun record => getitem record "latency_ms") data;
      uptimes ← mapM (fun record => getitem record "uptime") data;
      avg_latency ← np_mean latencies;
      p95_latency ← np_percentile latencies (of_Z 95);
      avg_uptime ← np_mean uptimes;
      let breaches := count_breaches latencies threshold in
      Ok {| avg_latency := round2 avg_latency;
            p95_latency := round2 p95_latency;
            avg_uptime := round2 avg_uptime;
            breaches := breaches |}
  end.

(** ** get_metrics

    [telemetry] is the module's TELEMETRY_DATA, loaded once at import. *)
Definition get_metrics (telemetry : gmap string (list (Dict F)))
    (request : MetricsRequest F) : result (gmap string (RegionMetrics F)) :=
  foldl (fun acc region =>
           results ← acc;
           match telemetry !! region with
           | Some data =>
               m ← calculate_metrics data (threshold_ms request);
               Ok (<[region := m]> results)
           | None => Ok (<[region := zero_metrics]> results)
           end)
        (Ok ∅) (regions request).

End Calculator.

(** ** Well-formed samples *)

Record Sample (F : Type) : Type := { latency_ms : F; uptime : F }.
Arguments Build_Sample {F}.
Arguments latency_ms {F}.
Arguments uptime {F}.

(** The record of a sample: a dict with exactly the two fields. *)
Definition record_of {F} (s : Sample F) : Dict F :=
  <["latency_ms" := latency_ms s]> (<["uptime" := uptime s]> ∅).

(** A dict is well formed when it has (at least) the two fields. *)
Definition well_formed {F} (record : Dict F) : Prop :=
  is_Some (record !! "latency_ms") /\ is_Some (record !! "uptime").

(** The calculator on a sequence of samples (the spec's [compute]). *)
Definition compute {F} `{Arith F} (samples : list (Sample F)) (threshold : F)
  : result (RegionMetrics F) :=
  calculate_metrics (record_of <$> samples) threshold.

(** The sample a record holds: its two fields (0 stands in for a field that
    is missing, which a well-formed record does not have). *)
Definition sample_of {F} `{Arith F} (record : Dict F) : Sample F :=
  {| latency_ms := default (of_Z 0) (record !! "latency_ms");
     uptime := default (of_Z 0) (record !! "uptime") |}.

(** The dataset as the service holds it: every sample as its record. *)
Definition telemetry_of {F} (dataset : gmap string (list (Sample F)))
  : gmap string (list (Dict F)) :=
  (fun samples : list (Sample F) => record_of <$> samples) <$> dataset.

(** ** The pure part of the calculator

    What [calculate_metrics] computes from the two columns once the records
    are read; [compute_ok] below shows that [compute] returns exactly this. *)

Section Pure.
Context {F : Type} `{Arith F}.

Definition mean_of (a : list F) : F :=
  div (np_sum a) (of_Z (Z.of_nat (length a))).

Definition percentile_of (a : list F) (q : F) (default : F) : F :=
  match List.find isnan a with
  | Some not_a_number => not_a_number
  | None =>
      let arr := np_sort a in
      let n := Z.of_nat (length a) in
      let virtual_index := mul (of_Z (n - 1)) (div q (of_Z 100)) in
      let above := leb (of_Z (n - 1)) virtual_index in
      let below := ltb virtual_index (of_Z 0) in
      let previous_index :=
        if below then 0 else if above then -1 else floor virtual_index in
      let next_index :=
        if below then 0 else if above then -1 else floor virtual_index + 1 in
      lerp (item arr previous_index default) (item arr next_index default)
           (sub virtual_index (of_Z previous_index))
  end.

Definition region_metrics (samples : list (Sample F)) (threshold : F)
  : RegionMetrics F :=
  match samples with
  | [] => zero_metrics
  | s :: _ =>
      let latencies := latency_ms <$> samples in
      {| avg_latency := round2 (mean_of latencies);
         p95_latency := round2 (percentile_of latencies (of_Z 95) (latency_ms s));
         avg_uptime := round2 (mean_of (uptime <$> samples));
         breaches := count_breaches latencies threshold |}
  end.

(** What the dispatch of [get_metrics] stores for a region. *)
Definition dispatch (dataset : gmap string (list (Sample F))) (threshold : F)
    (region : string) : RegionMetrics F :=
  match dataset !! region with
  | Some samples => region_metrics samples threshold
  | None => zero_metrics
  end.

End Pure.

(** The order laws the breach count relies on. *)
Class ArithOrder (F : Type) `{Arith F} : Prop := {
  leb_ltb_trans : forall t1 t2 x : F,
    leb t1 t2 = true -> ltb t2 x = true -> ltb t1 x = true;
  ltb_irrefl : forall x : F, ltb x x = false;
}.


(** ** The words of the specification *)

(** The number a float is; nan and the infinities are none. *)
Definition float_value (x : float) : option Q :=
  match Prim2SF x with
  | S754_zero _ => Some 0%Q
  | S754_finite s m e => Some (inject_Z (cond_Zopp s (Zpos m)) * Qpower 2 e)%Q
  | _ => None
  end.

(** Two floats that are the same number: equal, or 0.0 and -0.0. *)
Definition same_number (x y : float) : Prop :=
  x = y \/ PrimFloat.eqb x y = true.

(** The same number on the specification of the floats: equal, or two
    zeros. *)
Definition sf_same (a b : spec_float) : Prop :=
  match a, b with
  | S754_zero _, S754_zero _ => True
  | _, _ => a = b
  end.

(** A float that is a number: below or equal to itself. *)
Definition is_number (x : float) : Prop := PrimFloat.leb x x = true.

(** [P / 2^n] rounded to the nearest integer, a tie going to the even
    neighbour: what the rounding of the floats does to a mantissa [P] that
    has [n] bits too many. *)
Definition Zrne (P n : Z) : Z :=
  let K0 := P / 2 ^ n in
  match 2 * (P mod 2 ^ n) ?= 2 ^ n with
  | Lt => K0
  | Eq => if Z.even K0 then K0 else K0 + 1
  | Gt => K0 + 1
  end.


(** A list of floats in ascending order. *)
Definition ascending (a : list float) : Prop :=
  StronglySorted (fun x y => PrimFloat.leb x y = true) a.

(** The rank of the 95th percentile among [n] sorted values, 0.95 * (n - 1):
    the integer below it, and the rank as the float64 product that the
    fraction is taken from. *)
Definition rank95_floor (n : Z) : Z := 95 * (n - 1) / 100.

Definition rank95 (n : Z) : float :=
  PrimFloat.mul (Binary64.of_Z (n - 1))
    (PrimFloat.div (Binary64.of_Z 95) (Binary64.of_Z 100)).

(** The value at the rank in the sorted values: the interpolation between
    the two elements that bracket the rank (the last element twice when
    there is no element after it), by the fraction of the rank. *)
Definition interpolate (sorted_values : list float) : float :=
  let n := Z.of_nat (length sorted_values) in
  let lower := nth (Z.to_nat (rank95_floor n)) sorted_values PrimFloat.zero in
  let upper :=
    nth (Z.to_nat (Z.min (rank95_floor n + 1) (n - 1))) sorted_values PrimFloat.zero in
  lerp lower upper (PrimFloat.sub (rank95 n) (Binary64.of_Z (rank95_floor n))).

(** The mantissa of the float64 quotient 95 / 100, which is
    [mantissa95] / 2^53: a little less than 0.95, since 20 * [mantissa95]
    is 19 * 2^53 - 8. *)
Definition mantissa95 : positive := 8556839292003942.

(** The longest sequences that the statements about the percentile cover:
    up to this length n - 1 is a float64 with bits to spare, and the
    float64 rank can be compared with the exact one. *)
Definition max_length : Z := 2 ^ 49.

Definition rank95_agrees (n : Z) : bool :=
  (Binary64.floor (rank95 n) =? rank95_floor n)
  && negb (PrimFloat.leb (Binary64.of_Z (n - 1)) (rank95 n))
  && negb (PrimFloat.ltb (rank95 n) PrimFloat.zero).

(** ** The rest of the module: the loader and the root endpoint *)

(** What [get_metrics] computes for one requested region: the calculator on
    the region's records, or the zero metrics for a region the dataset does
    not have. *)
Definition region_result {F} `{Arith F} (telemetry : gmap string (list (Dict F)))
    (threshold : F) (region : string) : result (RegionMetrics F) :=
  match telemetry !! region with
  | Some data => calculate_metrics data threshold
  | None => Ok zero_metrics
  end.

(** os.path on an absolute path, the path being the list of its
    components: [dirname] drops the last one, [join] adds one. *)
Definition dirname (path : list string) : list string := removelast path.

Definition join (dir : list string) (name : string) : list string := dir ++ [name].

Section Loader.
Context {F : Type}.

(** The file system and the parser, as the loader meets them: reading a file
    gives its text or fails (FileNotFoundError and the like), and json.load
    gives the dataset or fails (a text that is no JSON). *)
Variable read_file : list string -> option string.
Variable json_load : string -> option (gmap string (list (Dict F))).

(** load_telemetry_data(), [file] being abspath(__file__): any exception
    is caught and the empty dict returned. *)
Definition load_telemetry_data (file : list string) : gmap string (list (Dict F)) :=
  let current_dir := dirname file in
  let parent_dir := dirname current_dir in
  let data_path := join parent_dir "q-vercel-latency.json" in
  match read_file data_path with
  | Some text =>
      match json_load text with
      | Some data => data
      | None => ∅
      end
  | None => ∅
  end.

End Loader.

(** The answer of the root endpoint.  A Python dict lists its keys in the
    order of insertion; the map of the model has no such order, and the keys
    come in the order of the map: the properties below are about which
    regions are listed, not where. *)
Record RootResponse : Type := {
  message : string;
  available_regions : list string;
}.

Definition root {F} (telemetry : gmap string (list (Dict F))) : RootResponse :=
  {| message := "eShopCo Metrics API";
     available_regions := (map_to_list telemetry).*1 |}.


(** ** Sample data *)

#[local] Set Warnings "-inexact-float".

(** The worked example of the specification. *)
Definition example_binary64 : list (Sample float) :=
  [ {| latency_ms := 100; uptime := 0.99 |};
    {| latency_ms := 150; uptime := 0.95 |};
    {| latency_ms := 200; uptime := 0.90 |} ]%float.

(** A single sample whose two values have more than 2 decimals:
    100 + 1/256 and 1/2 + 1/256, both of them floats. *)
Definition fine_binary64 : Sample float :=
  {| latency_ms := 100.00390625%float; uptime := 0.50390625%float |}.

(** A single sample whose latency, 100 + 1/128, rounds up. *)
Definition above_binary64 : Sample float :=
  {| latency_ms := 100.0078125%float; uptime := 1%float |}.

(** A single sample with the float nearest to 2.675 and to 0.125: the first
    is below 2.675, the second is 1/8. *)
Definition halfway : Sample float :=
  {| latency_ms := 2.675%float; uptime := 0.125%float |}.

(** The same three samples in two orders; the 1 is lost when it is added to
    1e16, and kept when it is added last. *)
Definition order_a : list (Sample float) :=
  [ {| latency_ms := 1; uptime := 1 |};
    {| latency_ms := 1e16; uptime := 1 |};
    {| latency_ms := -1e16; uptime := 1 |} ]%float.

Definition order_b : list (Sample float) :=
  [ {| latency_ms := 1e16; uptime := 1 |};
    {| latency_ms := -1e16; uptime := 1 |};
    {| latency_ms := 1; uptime := 1 |} ]%float.

(** Latencies that are not equally spaced, out of order. *)
Definition uneven : list (Sample float) :=
  [ {| latency_ms := 250; uptime := 1 |};
    {| latency_ms := 100; uptime := 1 |};
    {| latency_ms := 110; uptime := 1 |};
    {| latency_ms := 130; uptime := 1 |};
    {| latency_ms := 170; uptime := 1 |} ]%float.

(** Twelve samples: the rank 0.95 * 11 = 10.45 has a fraction below one
    half, where numpy interpolates from the lower value. *)
Definition twelve : list (Sample float) :=
  (fun x : float => {| latency_ms := x; uptime := 1%float |})
  <$> [120; 10; 110; 20; 100; 30; 90; 40; 80; 50; 70; 60]%float.

(** Twelve samples whose two greatest latencies are 1 and 1e16: between
    them the two formulas of numpy's interpolation differ in the last
    digit. *)
Definition wide : list (Sample float) :=
  (fun x : float => {| latency_ms := x; uptime := 1%float |})
  <$> [1e16; 0; 0; 0; 0; 0; 1; 0; 0; 0; 0; 0]%float.

(** Nine samples, one more than the 8 running sums of numpy's sum: added in
    order the seven 1 are lost in 1e16, added by numpy six of them are kept. *)
Definition nine : list (Sample float) :=
  (fun x : float => {| latency_ms := x; uptime := 1%float |})
  <$> [1e16; 1; 1; 1; 1; 1; 1; 1; -1e16]%float.

(** 21 samples of latency 100 and one whose latency is nan. *)
Definition with_nan : list (Sample float) :=
  replicate 21 {| latency_ms := 100%float; uptime := 1%float |}
  ++ [ {| latency_ms := PrimFloat.nan; uptime := 1%float |} ].

(** Records for the error cases: one without latency_ms, one without
    uptime, and one with a field the calculator does not read. *)
Definition no_latency : Dict float := {["uptime" := 1%float]}.

Definition no_uptime : Dict float := {["latency_ms" := 100%float]}.

Definition with_region : Dict float :=
  <["region" := 7%float]> (record_of {| latency_ms := 100%float; uptime := 1%float |}).

(** * Part 2: properties of the program *)

(** ** Properties that hold in every arithmetic *)

Section Generic.
Context {F : Type} `{Arith F}.

Lemma np_mean_cons x a : np_mean (x :: a) = Ok (mean_of (x :: a)).
Proof. reflexivity. Qed.

Lemma np_percentile_cons x a q :
  np_percentile (x :: a) q = Ok (percentile_of (x :: a) q x).
Proof. reflexivity. Qed.

Lemma getitem_latency (s : Sample F) :
  getitem (record_of s) "latency_ms" = Ok (latency_ms s).
Proof. unfold getitem, record_of. by rewrite lookup_insert_eq. Qed.

Lemma getitem_uptime (s : Sample F) :
  getitem (record_of s) "uptime" = Ok (uptime s).
Proof.
  unfold getitem, record_of.
  rewrite lookup_insert_ne by done. by rewrite lookup_insert_eq.
Qed.

Lemma mapM_getitem (key : string) (proj : Sample F -> F) samples :
  (forall s, getitem (record_of s) key = Ok (proj s)) ->
  mapM (fun record => getitem record key) (record_of <$> samples)
  = Ok (proj <$> samples).
Proof.
  intros Hget. induction samples as [|s samples IH]; [reflexivity|].
  cbn [fmap list_fmap mapM]. rewrite Hget. cbn. rewrite IH. reflexivity.
Qed.

(** What [compute] returns on a non-empty sequence. *)
Lemma compute_cons (s : Sample F) samples threshold :
  let latencies := latency_ms <$> s :: samples in
  let uptimes := uptime <$> s :: samples in
  compute (s :: samples) threshold
  = Ok {| avg_latency := round2 (mean_of latencies);
          p95_latency := round2 (percentile_of latencies (of_Z 95) (latency_ms s));
          avg_uptime := round2 (mean_of uptimes);
          breaches := count_breaches latencies threshold |}.
Proof.
  intros latencies uptimes. unfold compute, calculate_metrics.
  pose proof (mapM_getitem "latency_ms" latency_ms (s :: samples) getitem_latency) as Hl.
  pose proof (mapM_getitem "uptime" uptime (s :: samples) getitem_uptime) as Hu.
  cbn [fmap list_fmap] in *. rewrite Hl, Hu. reflexivity.
Qed.

Lemma compute_nil threshold : compute (F := F) [] threshold = Ok zero_metrics.
Proof. reflexivity. Qed.

(** The breach counter is the number of elements above the threshold. *)
Lemma count_breaches_acc latencies threshold (acc : Z) :
  fold_left (fun acc lat => if ltb threshold lat then acc + 1 else acc) latencies acc
  = acc + Z.of_nat (length (filter (fun lat => ltb threshold lat = true) latencies)).
Proof.
  revert acc. induction latencies as [|lat latencies IH]; intros acc; cbn [fold_left].
  - rewrite filter_nil. cbn. lia.
  - rewrite IH, filter_cons. destruct (ltb threshold lat) eqn:E.
    + rewrite decide_True by done. cbn [length]. lia.
    + rewrite decide_False by done. lia.
Qed.

Lemma count_breaches_filter latencies threshold :
  count_breaches latencies threshold
  = Z.of_nat (length (filter (fun lat => ltb threshold lat = true) latencies)).
Proof. unfold count_breaches. rewrite count_breaches_acc. lia. Qed.

End Generic.

(** ** Sorting *)

Section Sorting.
Context {F : Type} `{Arith F}.

Lemma insert_sorted_perm (x : F) (a : list F) : insert_sorted x a ≡ₚ x :: a.
Proof.
  induction a as [|y a IH]; cbn [insert_sorted]; [reflexivity|].
  destruct (leb x y); [reflexivity|].
  rewrite IH. apply perm_swap.
Qed.

Lemma np_sort_perm (a : list F) : np_sort a ≡ₚ a.
Proof.
  induction a as [|x a IH]; [reflexivity|].
  cbn [np_sort foldr]. fold (np_sort a).
  rewrite insert_sorted_perm. by constructor.
Qed.

Lemma np_sort_length (a : list F) : length (np_sort a) = length a.
Proof. apply Permutation_length, np_sort_perm. Qed.

End Sorting.

(** ** The order of binary64 *)

Ltac cmp_cases :=
  repeat match goal with
    | |- context [Pos.compare_cont Eq ?x ?y] =>
        change (Pos.compare_cont Eq x y) with (Pos.compare x y)
    | |- context [Z.compare ?x ?y] => destruct (Z.compare_spec x y)
    | |- context [Pos.compare ?x ?y] => destruct (Pos.compare_spec x y)
    end.

Section Binary64Order.

(** On the specification of the floats: a <= b < c gives a < c (a nan
    compares with nothing, so none of the three is one). *)
Lemma SFleb_ltb_trans (a b c : spec_float) :
  SFleb a b = true -> SFltb b c = true -> SFltb a c = true.
Proof.
  unfold SFleb, SFltb.
  destruct a as [sa | sa | | sa ma ea], b as [sb | sb | | sb mb eb],
    c as [sc | sc | | sc mc ec]; cbn;
    try destruct sa; try destruct sb; try destruct sc; cbn;
    try discriminate; try reflexivity;
    cmp_cases; cbn; intros; subst; try discriminate; try reflexivity; lia.
Qed.

Lemma leb_ltb_trans_binary64 (t1 t2 x : float) :
  PrimFloat.leb t1 t2 = true -> PrimFloat.ltb t2 x = true ->
  PrimFloat.ltb t1 x = true.
Proof.
  rewrite FloatAxioms.leb_spec, !FloatAxioms.ltb_spec. apply SFleb_ltb_trans.
Qed.

End Binary64Order.

(** ** Totality and dispatch *)

Section Totality.
Context {F : Type} `{Arith F}.

Lemma compute_ok samples threshold :
  compute samples threshold = Ok (region_metrics samples threshold).
Proof.
  destruct samples as [|s samples]; [reflexivity | apply compute_cons].
Qed.

(** A list comprehension over the records gives one value per record, or
    the KeyError of the first record that lacks the field. *)
Lemma getitem_cases (record : Dict F) (key : string) :
  (exists v, record !! key = Some v /\ getitem record key = Ok v)
  \/ (record !! key = None /\ getitem record key = Raise (KeyError key)).
Proof. unfold getitem. destruct (record !! key); eauto. Qed.

Lemma mapM_getitem_cases (key : string) (data : list (Dict F)) :
  (exists values, mapM (fun record => getitem record key) data = Ok values
                  /\ length values = length data)
  \/ mapM (fun record => getitem record key) data = Raise (KeyError key).
Proof.
  induction data as [|record data IH]; cbn [mapM].
  - left. exists []. split; reflexivity.
  - destruct (getitem_cases record key) as [(v & _ & ->) | [_ ->]];
      cbn [mbind result_bind]; [|by right].
    destruct IH as [(values & -> & Hlen) | ->]; cbn [mbind result_bind]; [|by right].
    left. exists (v :: values). split; [reflexivity | cbn; congruence].
Qed.

Lemma mapM_getitem_well_formed (key : string) (data : list (Dict F)) :
  Forall (fun record => is_Some (record !! key)) data ->
  exists values, mapM (fun record => getitem record key) data = Ok values
                 /\ length values = length data.
Proof.
  induction 1 as [|record data [v Hv] _ (values & IH & Hlen)]; cbn [mapM].
  - exists []. split; reflexivity.
  - destruct (getitem_cases record key) as [(v' & Hv' & ->) | [Hv' _]];
      [|congruence].
    rewrite IH. cbn [mbind result_bind].
    exists (v' :: values). split; [reflexivity | cbn; congruence].
Qed.

Lemma np_mean_ok (a : list F) : a <> [] -> exists m, np_mean a = Ok m.
Proof. destruct a; [done | eauto]. Qed.

Lemma np_percentile_ok (a : list F) (q : F) :
  a <> [] -> exists p, np_percentile a q = Ok p.
Proof. destruct a; [done | eauto]. Qed.

Lemma nonempty_length {A B} (a : list A) (b : list B) :
  length a = length b -> b <> [] -> a <> [].
Proof. destruct a, b; cbn; congruence. Qed.

(** Whatever the records, the calculator returns metrics or raises a
    KeyError: never the error of an empty array. *)
Lemma calculate_metrics_cases (data : list (Dict F)) (threshold : F) :
  (exists r, calculate_metrics data threshold = Ok r)
  \/ (exists key, calculate_metrics data threshold = Raise (KeyError key)).
Proof.
  destruct data as [|record data]; [left; by eexists|].
  unfold calculate_metrics.
  destruct (mapM_getitem_cases "latency_ms" (record :: data))
    as [(latencies & -> & Hl) | ->]; cbn [mbind result_bind]; [|right; by eexists].
  destruct (mapM_getitem_cases "uptime" (record :: data))
    as [(uptimes & -> & Hu) | ->]; cbn [mbind result_bind]; [|right; by eexists].
  destruct (np_mean_ok latencies) as [m ->]; [by eapply nonempty_length|].
  destruct (np_percentile_ok latencies (of_Z 95)) as [p ->];
    [by eapply nonempty_length|].
  destruct (np_mean_ok uptimes) as [u ->]; [by eapply nonempty_length|].
  left. by eexists.
Qed.

Lemma calculate_metrics_well_formed (data : list (Dict F)) (threshold : F) :
  Forall well_formed data -> exists r, calculate_metrics data threshold = Ok r.
Proof.
  intros Hwf. destruct data as [|record data]; [by eexists|].
  unfold calculate_metrics.
  destruct (mapM_getitem_well_formed "latency_ms" (record :: data))
    as (latencies & -> & Hl).
  { eapply Forall_impl; [exact Hwf|]. by intros ? [? ?]. }
  destruct (mapM_getitem_well_formed "uptime" (record :: data))
    as (uptimes & -> & Hu).
  { eapply Forall_impl; [exact Hwf|]. by intros ? [? ?]. }
  cbn [mbind result_bind].
  destruct (np_mean_ok latencies) as [m ->]; [by eapply nonempty_length|].
  destruct (np_percentile_ok latencies (of_Z 95)) as [p ->];
    [by eapply nonempty_length|].
  destruct (np_mean_ok uptimes) as [u ->]; [by eapply nonempty_length|].
  by eexists.
Qed.

Lemma mapM_getitem_sample_of (key : string) (proj : Sample F -> F)
    (data : list (Dict F)) :
  (forall record, proj (sample_of record) = default (of_Z 0) (record !! key)) ->
  Forall (fun record => is_Some (record !! key)) data ->
  mapM (fun record => getitem record key) data
  = Ok (proj <$> (sample_of <$> data)).
Proof.
  intros Hproj. induction 1 as [|record data [v Hv] _ IH]; [reflexivity|].
  cbn [mapM]. rewrite IH. unfold getitem at 1. rewrite Hv. cbn [mbind result_bind].
  rewrite !fmap_cons, Hproj, Hv. reflexivity.
Qed.

(** The calculator reads nothing but the two fields: on well-formed
    records, whatever else they hold, it is [compute] on their samples. *)
Lemma calculate_metrics_compute (data : list (Dict F)) (threshold : F) :
  Forall well_formed data ->
  calculate_metrics data threshold = compute (sample_of <$> data) threshold.
Proof.
  intros Hwf. destruct data as [|record data]; [reflexivity|].
  rewrite fmap_cons, compute_cons. unfold calculate_metrics.
  rewrite (mapM_getitem_sample_of "latency_ms" latency_ms)
    by (done || (eapply Forall_impl; [exact Hwf|]; by intros ? [? ?])).
  rewrite (mapM_getitem_sample_of "uptime" uptime)
    by (done || (eapply Forall_impl; [exact Hwf|]; by intros ? [? ?])).
  reflexivity.
Qed.

Lemma record_of_well_formed (s : Sample F) : well_formed (record_of s).
Proof.
  split; unfold record_of.
  - rewrite lookup_insert_eq. by eexists.
  - rewrite lookup_insert_ne by done. rewrite lookup_insert_eq. by eexists.
Qed.

Lemma lookup_foldl_insert {V} (f : string -> V) (l : list string)
    (m : gmap string V) (k : string) :
  foldl (fun acc r => <[r := f r]> acc) m l !! k
  = if decide (k ∈ l) then Some (f k) else m !! k.
Proof.
  revert m. induction l as [|r l IH]; intros m; cbn [foldl].
  - rewrite decide_False by apply not_elem_of_nil. reflexivity.
  - rewrite IH. destruct (decide (k ∈ l)) as [Hin | Hnin].
    + rewrite decide_True by (by apply list_elem_of_further). reflexivity.
    + destruct (decide (k = r)) as [-> | Hne].
      * rewrite decide_True by apply list_elem_of_here. by rewrite lookup_insert_eq.
      * rewrite decide_False by (rewrite elem_of_cons; intros [? | ?]; done).
        by rewrite lookup_insert_ne.
Qed.

Lemma get_metrics_fold dataset threshold (l : list string)
    (results : gmap string (RegionMetrics F)) :
  foldl (fun acc region =>
           results ← acc;
           match telemetry_of dataset !! region with
           | Some data =>
               m ← calculate_metrics data threshold;
               Ok (<[region := m]> results)
           | None => Ok (<[region := zero_metrics]> results)
           end) (Ok results) l
  = Ok (foldl (fun acc region => <[region := dispatch dataset threshold region]> acc)
          results l).
Proof.
  revert results. induction l as [|region l IH]; intros results; [reflexivity|].
  cbn [foldl mbind result_bind]. unfold telemetry_of, dispatch at 2.
  rewrite lookup_fmap. destruct (dataset !! region) as [samples|]; cbn [fmap option_fmap option_map].
  - fold (compute samples threshold). rewrite compute_ok. cbn [mbind result_bind].
    apply IH.
  - apply IH.
Qed.

Lemma get_metrics_ok dataset (request : MetricsRequest F) :
  get_metrics (telemetry_of dataset) request
  = Ok (foldl (fun acc region =>
                 <[region := dispatch dataset (threshold_ms request) region]> acc)
          ∅ (regions request)).
Proof. apply get_metrics_fold. Qed.

End Totality.

(** ** The order laws of binary64 *)

Lemma SFltb_irrefl (a : spec_float) : SFltb a a = false.
Proof.
  unfold SFltb. destruct a as [s | s | | s m e]; cbn; try reflexivity.
  - destruct s; reflexivity.
  - change (Pos.compare_cont Eq m m) with (Pos.compare m m).
    destruct s; rewrite Z.compare_refl, Pos.compare_refl; reflexivity.
Qed.

#[export] Instance binary64_order : ArithOrder float.
Proof.
  split.
  - exact leb_ltb_trans_binary64.
  - intros x. cbn [ltb binary64]. rewrite FloatAxioms.ltb_spec. apply SFltb_irrefl.
Qed.

Section Breaches.
Context {F : Type} `{Arith F}.

Lemma filter_fmap_length {A B} (f : A -> B) (P : B -> Prop)
    `{forall y, Decision (P y)} (l : list A) :
  length (filter P (f <$> l)) = length (filter (fun x => P (f x)) l).
Proof.
  induction l as [|x l IH]; [reflexivity|].
  cbn [fmap list_fmap]. rewrite !filter_cons.
  destruct (decide (P (f x))); cbn [length]; congruence.
Qed.

Lemma count_breaches_samples (samples : list (Sample F)) (threshold : F) :
  count_breaches (latency_ms <$> samples) threshold
  = Z.of_nat (length (filter (fun s => ltb threshold (latency_ms s) = true) samples)).
Proof. rewrite count_breaches_filter, filter_fmap_length. reflexivity. Qed.

Lemma breaches_region_metrics (samples : list (Sample F)) (threshold : F) :
  breaches (region_metrics samples threshold)
  = Z.of_nat (length (filter (fun s => ltb threshold (latency_ms s) = true) samples)).
Proof.
  destruct samples as [|s samples]; [reflexivity|].
  cbn [region_metrics breaches]. apply count_breaches_samples.
Qed.

Lemma breaches_antitone `{!ArithOrder F} (samples : list (Sample F)) (t1 t2 : F) :
  leb t1 t2 = true ->
  breaches (region_metrics samples t2) <= breaches (region_metrics samples t1).
Proof.
  intros Hle. rewrite !breaches_region_metrics. apply inj_le.
  induction samples as [|s samples IH]; [reflexivity|].
  rewrite !filter_cons.
  destruct (decide (ltb t2 (latency_ms s) = true)) as [H2 | H2].
  - rewrite decide_True by (eapply leb_ltb_trans; eassumption).
    cbn [length]. lia.
  - destruct (decide (ltb t1 (latency_ms s) = true)); cbn [length]; lia.
Qed.

Lemma breaches_perm (samples samples' : list (Sample F)) (threshold : F) :
  samples ≡ₚ samples' ->
  breaches (region_metrics samples threshold)
  = breaches (region_metrics samples' threshold).
Proof.
  intros Hp. rewrite !breaches_region_metrics. f_equal.
  apply Permutation_length. by rewrite Hp.
Qed.

End Breaches.


(** ** Not-a-number in binary64

    json.load reads the literal NaN as the float nan, so a dataset can hold
    one; every comparison with nan is false and every sum with nan is nan. *)

Section Binary64NaN.

Lemma Prim2SF_nan : Prim2SF PrimFloat.nan = S754_nan.
Proof. reflexivity. Qed.

Lemma SFeqb_refl_false (a : spec_float) : SFeqb a a = false -> a = S754_nan.
Proof.
  unfold SFeqb. destruct a as [s | s | | s m e]; cbn; try discriminate.
  - destruct s; discriminate.
  - reflexivity.
  - change (Pos.compare_cont Eq m m) with (Pos.compare m m).
    destruct s; rewrite Z.compare_refl, Pos.compare_refl; discriminate.
Qed.

(** There is one nan. *)
Lemma is_nan_eq (x : float) : PrimFloat.is_nan x = true -> x = PrimFloat.nan.
Proof.
  unfold PrimFloat.is_nan. rewrite negb_true_iff, FloatAxioms.eqb_spec.
  intros E. apply SFeqb_refl_false in E.
  apply Prim2SF_inj. by rewrite E.
Qed.

Lemma ltb_nan_r (x : float) : PrimFloat.ltb x PrimFloat.nan = false.
Proof.
  rewrite FloatAxioms.ltb_spec, Prim2SF_nan.
  unfold SFltb. by destruct (Prim2SF x).
Qed.

Lemma ltb_nan_l (x : float) : PrimFloat.ltb PrimFloat.nan x = false.
Proof. rewrite FloatAxioms.ltb_spec, Prim2SF_nan. reflexivity. Qed.

Lemma add_nan_r (x : float) : PrimFloat.add x PrimFloat.nan = PrimFloat.nan.
Proof.
  apply Prim2SF_inj. rewrite FloatAxioms.add_spec, Prim2SF_nan.
  unfold SF64add, SFadd. by destruct (Prim2SF x).
Qed.

Lemma add_nan_l (x : float) : PrimFloat.add PrimFloat.nan x = PrimFloat.nan.
Proof.
  apply Prim2SF_inj. rewrite FloatAxioms.add_spec, Prim2SF_nan. reflexivity.
Qed.

Lemma div_nan_l (x : float) : PrimFloat.div PrimFloat.nan x = PrimFloat.nan.
Proof.
  apply Prim2SF_inj. rewrite FloatAxioms.div_spec, Prim2SF_nan. reflexivity.
Qed.

Lemma round2_nan : round2 PrimFloat.nan = PrimFloat.nan.
Proof. vm_compute. reflexivity. Qed.

Lemma fold_add_nan (a : list float) : fold_left add a PrimFloat.nan = PrimFloat.nan.
Proof.
  induction a as [|x a IH]; [reflexivity|].
  cbn [fold_left add binary64]. by rewrite add_nan_l.
Qed.

Lemma fold_add_has_nan (a : list float) (acc : float) :
  PrimFloat.nan ∈ a -> fold_left add a acc = PrimFloat.nan.
Proof.
  revert acc. induction a as [|x a IH]; intros acc Hin; [by inversion Hin|].
  cbn [fold_left]. apply elem_of_cons in Hin as [<- | Hin].
  - cbn [add binary64]. rewrite add_nan_r. apply fold_add_nan.
  - by apply IH.
Qed.

(** The running sums of the unrolled loop: a nan in a block stays in the
    running sum of its column. *)
Lemma zip_add_has_nan (r c : list float) :
  length r = length c ->
  PrimFloat.nan ∈ r \/ PrimFloat.nan ∈ c ->
  PrimFloat.nan ∈ zip_with add r c.
Proof.
  revert c. induction r as [|x r IH]; intros [|y c] Hlen Hin; try discriminate.
  - destruct Hin as [Hin | Hin]; by inversion Hin.
  - cbn [zip_with]. injection Hlen as Hlen.
    rewrite !elem_of_cons in Hin. apply elem_of_cons.
    destruct Hin as [[<- | Hin] | [<- | Hin]].
    + left. cbn [add binary64]. by rewrite add_nan_l.
    + right. apply IH; auto.
    + left. cbn [add binary64]. by rewrite add_nan_r.
    + right. apply IH; auto.
Qed.

Lemma add_blocks_has_nan (blocks : nat) (r a : list float) :
  length r = 8%nat -> (8 * blocks <= length a)%nat ->
  PrimFloat.nan ∈ r \/ PrimFloat.nan ∈ a ->
  length (add_blocks blocks r a).1 = 8%nat
  /\ (PrimFloat.nan ∈ (add_blocks blocks r a).1
      \/ PrimFloat.nan ∈ (add_blocks blocks r a).2).
Proof.
  revert r a. induction blocks as [|blocks IH]; intros r a Hr Ha Hin.
  - cbn [add_blocks fst snd]. auto.
  - cbn [add_blocks].
    assert (Ht : length (take 8 a) = 8%nat) by (rewrite length_take; lia).
    apply IH.
    + rewrite length_zip_with, Hr, Ht. reflexivity.
    + rewrite length_drop. lia.
    + destruct Hin as [Hin | Hin].
      * left. apply zip_add_has_nan; [congruence | auto].
      * rewrite <- (take_drop 8 a) in Hin. apply elem_of_app in Hin as [Hin | Hin].
        -- left. apply zip_add_has_nan; [congruence | auto].
        -- by right.
Qed.

Lemma unrolled_sum_has_nan (a : list float) :
  (8 <= length a)%nat -> PrimFloat.nan ∈ a -> unrolled_sum a = PrimFloat.nan.
Proof.
  intros Hlen Hin. unfold unrolled_sum.
  destruct (add_blocks_has_nan (length a / 8 - 1) (take 8 a) (drop 8 a))
    as [Hr Hnan].
  - rewrite length_take. lia.
  - rewrite length_drop.
    pose proof (Nat.Div0.mul_div_le (length a) 8). lia.
  - rewrite <- (take_drop 8 a) in Hin. by apply elem_of_app in Hin.
  - destruct (add_blocks (length a / 8 - 1) (take 8 a) (drop 8 a)) as [r rest].
    cbn [fst snd] in Hr, Hnan.
    destruct r as [|r0 [|r1 [|r2 [|r3 [|r4 [|r5 [|r6 [|r7 [|r8 r]]]]]]]]];
      try discriminate Hr.
    destruct Hnan as [Hnan | Hnan]; [|by apply fold_add_has_nan].
    rewrite <- (fold_add_nan rest). f_equal.
    cbn [add binary64]. rewrite !elem_of_cons in Hnan.
    destruct Hnan as [<- | [<- | [<- | [<- | [<- | [<- | [<- | [<- | Hnan]]]]]]]];
      [| | | | | | | | by inversion Hnan];
      by rewrite ?add_nan_l, ?add_nan_r, ?add_nan_l, ?add_nan_r, ?add_nan_l.
Qed.

Lemma pairwise_sum_unfold (fuel : nat) (a : list float) :
  pairwise_sum fuel a
  = if (length a <? 8)%nat then fold_left add a neg_zero
    else if (length a <=? 128)%nat then unrolled_sum a
    else match fuel with
         | O => unrolled_sum a
         | S fuel' =>
             let n2 := (length a / 2 - (length a / 2) mod 8)%nat in
             add (pairwise_sum fuel' (take n2 a)) (pairwise_sum fuel' (drop n2 a))
         end.
Proof. destruct fuel; reflexivity. Qed.

Lemma pairwise_sum_has_nan (fuel : nat) (a : list float) :
  PrimFloat.nan ∈ a -> pairwise_sum fuel a = PrimFloat.nan.
Proof.
  revert a. induction fuel as [|fuel IH]; intros a Hin;
    rewrite pairwise_sum_unfold;
    (destruct (Nat.ltb_spec (length a) 8); [by apply fold_add_has_nan|]);
    (destruct (Nat.leb_spec (length a) 128); [by apply unrolled_sum_has_nan|]).
  - by apply unrolled_sum_has_nan.
  - cbv zeta. set (n2 := (length a / 2 - (length a / 2) mod 8)%nat).
    rewrite <- (take_drop n2 a) in Hin. cbn [add binary64].
    apply elem_of_app in Hin as [Hin | Hin].
    + rewrite (IH _ Hin). apply add_nan_l.
    + rewrite (IH (drop n2 a) Hin). apply add_nan_r.
Qed.

Lemma mean_of_has_nan (a : list float) :
  PrimFloat.nan ∈ a -> mean_of a = PrimFloat.nan.
Proof.
  intros Hin. unfold mean_of, np_sum. cbn [add div binary64].
  rewrite (pairwise_sum_has_nan _ a Hin), add_nan_r. apply div_nan_l.
Qed.

End Binary64NaN.

(** ** The numbers of binary64: order and the sign of zero *)

Section Binary64Numbers.

Lemma sf_same_refl (a : spec_float) : sf_same a a.
Proof. by destruct a. Qed.

Lemma sf_same_sym (a b : spec_float) : sf_same a b -> sf_same b a.
Proof. destruct a, b; cbn; congruence. Qed.

Lemma sf_same_trans (a b c : spec_float) : sf_same a b -> sf_same b c -> sf_same a c.
Proof. destruct a, b, c; cbn; congruence. Qed.

Lemma SFcompare_Eq_same (a b : spec_float) : SFcompare a b = Some Eq -> sf_same a b.
Proof.
  destruct a as [sa | sa | | sa ma ea], b as [sb | sb | | sb mb eb]; cbn;
    try destruct sa; try destruct sb; cbn; try discriminate; try done;
    change (Pos.compare_cont Eq ma mb) with (Pos.compare ma mb);
    destruct (Z.compare_spec ea eb) as [-> | |]; try discriminate;
    destruct (Pos.compare_spec ma mb) as [-> | |]; cbn; try discriminate; done.
Qed.

Lemma SFcompare_same (a a' b b' : spec_float) :
  sf_same a a' -> sf_same b b' -> SFcompare a b = SFcompare a' b'.
Proof.
  destruct a, a'; cbn; intros Ea; simplify_eq;
    destruct b, b'; cbn; intros Eb; simplify_eq; reflexivity.
Qed.

Lemma same_number_spec (x y : float) :
  same_number x y <-> sf_same (Prim2SF x) (Prim2SF y).
Proof.
  unfold same_number. rewrite FloatAxioms.eqb_spec. split.
  - intros [-> | E]; [apply sf_same_refl|].
    apply SFcompare_Eq_same. unfold SFeqb in E.
    by destruct (SFcompare (Prim2SF x) (Prim2SF y)) as [[| |]|].
  - intros Hs.
    destruct (Prim2SF x) eqn:Ex, (Prim2SF y) eqn:Ey; cbn in Hs;
      try discriminate; try (left; apply Prim2SF_inj; congruence).
    by right.
Qed.

Lemma same_number_refl (x : float) : same_number x x.
Proof. by left. Qed.

Lemma same_number_sym (x y : float) : same_number x y -> same_number y x.
Proof. rewrite !same_number_spec. apply sf_same_sym. Qed.

Lemma same_number_trans (x y z : float) :
  same_number x y -> same_number y z -> same_number x z.
Proof. rewrite !same_number_spec. apply sf_same_trans. Qed.

(** Two floats that are the same number are equal or the two zeros. *)
Lemma same_number_cases (x y : float) :
  same_number x y ->
  x = y
  \/ (x = PrimFloat.zero /\ y = PrimFloat.neg_zero)
  \/ (x = PrimFloat.neg_zero /\ y = PrimFloat.zero).
Proof.
  rewrite same_number_spec. intros Hs.
  destruct (Prim2SF x) as [sx | | |] eqn:Ex, (Prim2SF y) as [sy | | |] eqn:Ey;
    cbn in Hs; try discriminate; try (left; apply Prim2SF_inj; congruence).
  destruct sx, sy; [left | right; right | right; left | left];
    try split; apply Prim2SF_inj; rewrite ?Ex, ?Ey; reflexivity.
Qed.

(** A function of one float gives the same number on the same number as
    soon as it does on the two zeros. *)
Lemma same_number_unary (f : float -> float) (x y : float) :
  same_number (f PrimFloat.zero) (f PrimFloat.neg_zero) ->
  same_number x y -> same_number (f x) (f y).
Proof.
  intros H0 Hxy.
  destruct (same_number_cases x y Hxy) as [-> | [[-> ->] | [-> ->]]].
  - apply same_number_refl.
  - exact H0.
  - by apply same_number_sym.
Qed.

Lemma add_same (a a' b b' : float) :
  same_number a a' -> same_number b b' ->
  same_number (PrimFloat.add a b) (PrimFloat.add a' b').
Proof.
  rewrite !same_number_spec, !FloatAxioms.add_spec. unfold SF64add.
  destruct (Prim2SF a) as [[|] | | |], (Prim2SF a') as [[|] | | |];
    cbn [sf_same]; intros Ea; simplify_eq;
    destruct (Prim2SF b) as [[|] | | |], (Prim2SF b') as [[|] | | |];
    cbn [sf_same]; intros Eb; simplify_eq;
    try apply sf_same_refl; cbn; done.
Qed.

Lemma sub_same (a a' b b' : float) :
  same_number a a' -> same_number b b' ->
  same_number (PrimFloat.sub a b) (PrimFloat.sub a' b').
Proof.
  rewrite !same_number_spec, !FloatAxioms.sub_spec. unfold SF64sub.
  destruct (Prim2SF a) as [[|] | | |], (Prim2SF a') as [[|] | | |];
    cbn [sf_same]; intros Ea; simplify_eq;
    destruct (Prim2SF b) as [[|] | | |], (Prim2SF b') as [[|] | | |];
    cbn [sf_same]; intros Eb; simplify_eq;
    try apply sf_same_refl; cbn; done.
Qed.

Lemma mul_same (a a' b b' : float) :
  same_number a a' -> same_number b b' ->
  same_number (PrimFloat.mul a b) (PrimFloat.mul a' b').
Proof.
  rewrite !same_number_spec, !FloatAxioms.mul_spec. unfold SF64mul.
  destruct (Prim2SF a) as [[|] | | |], (Prim2SF a') as [[|] | | |];
    cbn [sf_same]; intros Ea; simplify_eq;
    destruct (Prim2SF b) as [[|] | | |], (Prim2SF b') as [[|] | | |];
    cbn [sf_same]; intros Eb; simplify_eq;
    try apply sf_same_refl; cbn; done.
Qed.

Lemma leb_same (a a' b b' : float) :
  same_number a a' -> same_number b b' ->
  PrimFloat.leb a b = PrimFloat.leb a' b'.
Proof.
  rewrite !same_number_spec, !FloatAxioms.leb_spec. intros Ha Hb.
  unfold SFleb. by rewrite (SFcompare_same _ _ _ _ Ha Hb).
Qed.

End Binary64Numbers.

Section Binary64Sorting.

Lemma SFleb_trans (a b c : spec_float) :
  SFleb a b = true -> SFleb b c = true -> SFleb a c = true.
Proof.
  unfold SFleb.
  destruct a as [sa | sa | | sa ma ea], b as [sb | sb | | sb mb eb],
    c as [sc | sc | | sc mc ec]; cbn;
    try destruct sa; try destruct sb; try destruct sc; cbn;
    try discriminate; try reflexivity;
    cmp_cases; cbn; intros; subst; try discriminate; try reflexivity; lia.
Qed.

Lemma SFleb_total (a b : spec_float) :
  SFleb a a = true -> SFleb b b = true -> SFleb a b = false -> SFleb b a = true.
Proof.
  unfold SFleb.
  destruct a as [sa | sa | | sa ma ea], b as [sb | sb | | sb mb eb]; cbn;
    try destruct sa; try destruct sb; cbn;
    try discriminate; try reflexivity; intros _ _;
    cmp_cases; cbn; intros; subst; try discriminate; try reflexivity; lia.
Qed.

Lemma SFleb_antisym (a b : spec_float) :
  SFleb a b = true -> SFleb b a = true -> sf_same a b.
Proof.
  unfold SFleb.
  destruct a as [sa | sa | | sa ma ea], b as [sb | sb | | sb mb eb]; cbn;
    try destruct sa; try destruct sb; cbn;
    try discriminate; try done;
    cmp_cases; cbn; intros; subst; try discriminate; try reflexivity; lia.
Qed.

Lemma SFleb_refl_false (a : spec_float) : SFleb a a = false -> a = S754_nan.
Proof.
  unfold SFleb. destruct a as [s | s | | s m e]; cbn; try discriminate.
  - destruct s; discriminate.
  - reflexivity.
  - change (Pos.compare_cont Eq m m) with (Pos.compare m m).
    destruct s; rewrite Z.compare_refl, Pos.compare_refl; discriminate.
Qed.

Lemma SFltb_leb_trans (a b c : spec_float) :
  SFltb a b = true -> SFleb b c = true -> SFltb a c = true.
Proof.
  unfold SFleb, SFltb.
  destruct a as [sa | sa | | sa ma ea], b as [sb | sb | | sb mb eb],
    c as [sc | sc | | sc mc ec]; cbn;
    try destruct sa; try destruct sb; try destruct sc; cbn;
    try discriminate; try reflexivity;
    cmp_cases; cbn; intros; subst; try discriminate; try reflexivity; lia.
Qed.

Lemma ltb_leb_trans (x y z : float) :
  PrimFloat.ltb x y = true -> PrimFloat.leb y z = true -> PrimFloat.ltb x z = true.
Proof. rewrite !FloatAxioms.ltb_spec, FloatAxioms.leb_spec. apply SFltb_leb_trans. Qed.

Lemma leb_trans (x y z : float) :
  PrimFloat.leb x y = true -> PrimFloat.leb y z = true -> PrimFloat.leb x z = true.
Proof. rewrite !FloatAxioms.leb_spec. apply SFleb_trans. Qed.

Lemma leb_total (x y : float) :
  is_number x -> is_number y ->
  PrimFloat.leb x y = false -> PrimFloat.leb y x = true.
Proof. unfold is_number. rewrite !FloatAxioms.leb_spec. apply SFleb_total. Qed.

Lemma leb_antisym (x y : float) :
  PrimFloat.leb x y = true -> PrimFloat.leb y x = true -> same_number x y.
Proof. rewrite same_number_spec, !FloatAxioms.leb_spec. apply SFleb_antisym. Qed.

(** The floats that are not numbers are the nan. *)
Lemma isnan_nan (x : float) : isnan x = true -> x = PrimFloat.nan.
Proof.
  unfold isnan. cbn [leb binary64]. rewrite negb_true_iff, FloatAxioms.leb_spec.
  intros E. apply SFleb_refl_false in E. apply Prim2SF_inj. by rewrite E.
Qed.

Lemma isnan_number (x : float) : isnan x = false <-> is_number x.
Proof. unfold isnan, is_number. cbn [leb binary64]. by rewrite negb_false_iff. Qed.

Lemma is_nan_number (x : float) : PrimFloat.is_nan x = false <-> is_number x.
Proof.
  unfold PrimFloat.is_nan, is_number.
  rewrite negb_false_iff, FloatAxioms.eqb_spec, FloatAxioms.leb_spec.
  unfold SFeqb, SFleb.
  destruct (Prim2SF x) as [s | s | | s m e]; cbn; try done.
  - by destruct s.
  - change (Pos.compare_cont Eq m m) with (Pos.compare m m).
    destruct s; rewrite Z.compare_refl, Pos.compare_refl; done.
Qed.

(** [find isnan]: the nan of a list that holds one, nothing in a list of
    numbers. *)
Lemma find_isnan_numbers (a : list float) :
  Forall is_number a -> List.find isnan a = None.
Proof.
  induction 1 as [|x a Hx _ IH]; [reflexivity|].
  cbn [List.find]. apply isnan_number in Hx. by rewrite Hx.
Qed.

Lemma find_isnan_cases (a : list float) :
  (List.find isnan a = Some PrimFloat.nan /\ PrimFloat.nan ∈ a)
  \/ (List.find isnan a = None /\ Forall is_number a).
Proof.
  induction a as [|x a IH]; [right; by split|].
  cbn [List.find]. destruct (isnan x) eqn:E.
  - left. apply isnan_nan in E as ->. split; [reflexivity | apply list_elem_of_here].
  - apply isnan_number in E.
    destruct IH as [[-> Hin] | [-> Hall]].
    + left. split; [reflexivity | by apply list_elem_of_further].
    + right. split; [reflexivity | by constructor].
Qed.

Lemma nan_not_number : ~ is_number PrimFloat.nan.
Proof. unfold is_number. vm_compute. discriminate. Qed.

Lemma find_isnan_has_nan (a : list float) :
  PrimFloat.nan ∈ a -> List.find isnan a = Some PrimFloat.nan.
Proof.
  intros Hin. destruct (find_isnan_cases a) as [[E _] | [_ Hall]]; [exact E|].
  rewrite Forall_forall in Hall. destruct (nan_not_number (Hall _ Hin)).
Qed.

(** Insertion and sorting, up to the sign of zero. *)
Lemma insert_sorted_same (x x' : float) (a a' : list float) :
  same_number x x' -> Forall2 same_number a a' ->
  Forall2 same_number (insert_sorted x a) (insert_sorted x' a').
Proof.
  intros Hx Ha. induction Ha as [|y y' a a' Hy Ha IH]; cbn [insert_sorted].
  - constructor; [exact Hx | constructor].
  - cbn [leb binary64]. rewrite (leb_same x x' y y' Hx Hy).
    destruct (PrimFloat.leb x' y').
    + constructor; [exact Hx|]. by constructor.
    + by constructor.
Qed.

Lemma Forall2_same_refl (a : list float) : Forall2 same_number a a.
Proof. induction a; constructor; [apply same_number_refl | done]. Qed.

Lemma Forall2_same_trans (a b c : list float) :
  Forall2 same_number a b -> Forall2 same_number b c -> Forall2 same_number a c.
Proof.
  intros Hab. revert c. induction Hab as [|x y a b Hxy _ IH]; intros c Hbc;
    inversion Hbc; subst; constructor; [by eapply same_number_trans | by apply IH].
Qed.

Lemma insert_sorted_swap (x y : float) (a : list float) :
  is_number x -> is_number y -> Forall is_number a ->
  Forall2 same_number (insert_sorted x (insert_sorted y a))
                      (insert_sorted y (insert_sorted x a)).
Proof.
  intros Hx Hy Ha. induction Ha as [|z a Hz Ha IH]; cbn [insert_sorted leb binary64].
  - destruct (PrimFloat.leb x y) eqn:Exy, (PrimFloat.leb y x) eqn:Eyx.
    + constructor; [by apply leb_antisym|].
      constructor; [by apply leb_antisym | constructor].
    + apply Forall2_same_refl.
    + apply Forall2_same_refl.
    + by rewrite (leb_total x y Hx Hy Exy) in Eyx.
  - destruct (PrimFloat.leb y z) eqn:Eyz, (PrimFloat.leb x z) eqn:Exz;
      cbn [insert_sorted leb binary64]; rewrite ?Eyz, ?Exz.
    + destruct (PrimFloat.leb x y) eqn:Exy, (PrimFloat.leb y x) eqn:Eyx.
      * constructor; [by apply leb_antisym|].
        constructor; [by apply leb_antisym | apply Forall2_same_refl].
      * apply Forall2_same_refl.
      * apply Forall2_same_refl.
      * by rewrite (leb_total x y Hx Hy Exy) in Eyx.
    + destruct (PrimFloat.leb x y) eqn:Exy.
      * by rewrite (leb_trans x y z Exy Eyz) in Exz.
      * cbn [insert_sorted leb binary64]. rewrite ?Exz, ?Eyz. apply Forall2_same_refl.
    + destruct (PrimFloat.leb y x) eqn:Eyx.
      * by rewrite (leb_trans y x z Eyx Exz) in Eyz.
      * cbn [insert_sorted leb binary64]. rewrite ?Exz, ?Eyz. apply Forall2_same_refl.
    + constructor; [apply same_number_refl | exact IH].
Qed.

Lemma insert_sorted_numbers (x : float) (a : list float) :
  is_number x -> Forall is_number a -> Forall is_number (insert_sorted x a).
Proof.
  intros Hx Ha. rewrite (insert_sorted_perm x a). by constructor.
Qed.

Lemma np_sort_numbers (a : list float) :
  Forall is_number a -> Forall is_number (np_sort a).
Proof. intros Ha. by rewrite (np_sort_perm a). Qed.

(** Sorting two arrangements of the same numbers gives the same list, up to
    the sign of zero. *)
Lemma np_sort_perm_same (a a' : list float) :
  a ≡ₚ a' -> Forall is_number a ->
  Forall2 same_number (np_sort a) (np_sort a').
Proof.
  induction 1 as [|x a a' Hp IH | x y a | a a' a'' Hp IH Hp' IH']; intros Ha.
  - constructor.
  - cbn [np_sort foldr]. fold (np_sort a) (np_sort a').
    apply insert_sorted_same; [apply same_number_refl|].
    apply IH. by inversion Ha.
  - cbn [np_sort foldr]. fold (np_sort a).
    inversion Ha as [|? ? Hy Ha']; subst. inversion Ha' as [|? ? Hx Ha'']; subst.
    apply insert_sorted_swap; [done | done | by apply np_sort_numbers].
  - eapply Forall2_same_trans; [by apply IH|].
    apply IH'. by rewrite <- Hp.
Qed.

(** A list in ascending order is left as it is. *)
Lemma np_sort_ascending (a : list float) : ascending a -> np_sort a = a.
Proof.
  induction 1 as [|x a Ha IH Hx]; [reflexivity|].
  cbn [np_sort foldr]. fold (np_sort a). rewrite IH.
  destruct Hx as [|y a Hxy _]; [reflexivity|].
  cbn [insert_sorted leb binary64]. by rewrite Hxy.
Qed.

Lemma Forall2_same_nth (a a' : list float) (i : nat) (d d' : float) :
  Forall2 same_number a a' -> (i < length a)%nat ->
  same_number (nth i a d) (nth i a' d').
Proof.
  intros Ha. revert i. induction Ha as [|x x' a a' Hx _ IH]; intros i Hi.
  - cbn in Hi. lia.
  - destruct i as [|i]; [exact Hx|]. cbn [nth]. apply IH. cbn in Hi. lia.
Qed.

End Binary64Sorting.

(** ** Rounding in binary64

    The specification of the floats rounds a mantissa by shifting it to the
    right one bit at a time, with a round bit and a sticky bit, and then
    rounding to nearest, ties to even.  What follows reads that as an
    integer division. *)

Section Binary64Rounding.

Lemma digits2_pos_bounds (p : positive) :
  2 ^ (Zpos (digits2_pos p) - 1) <= Zpos p < 2 ^ Zpos (digits2_pos p).
Proof.
  induction p as [p IH | p IH |]; cbn [digits2_pos].
  - rewrite Pos2Z.inj_succ.
    replace (Z.succ (Zpos (digits2_pos p)) - 1) with (Z.succ (Zpos (digits2_pos p) - 1)) by lia.
    rewrite !Z.pow_succ_r by lia. lia.
  - rewrite Pos2Z.inj_succ.
    replace (Z.succ (Zpos (digits2_pos p)) - 1) with (Z.succ (Zpos (digits2_pos p) - 1)) by lia.
    rewrite !Z.pow_succ_r by lia. lia.
  - cbn. lia.
Qed.

Lemma digits2_pos_unique (p : positive) (d : Z) :
  2 ^ (d - 1) <= Zpos p < 2 ^ d -> Zpos (digits2_pos p) = d.
Proof.
  intros [Hlo Hhi]. pose proof (digits2_pos_bounds p) as [Hlo' Hhi'].
  assert (0 < d).
  { destruct (Z.ltb_spec 0 d); [done|].
    destruct (decide (d = 0)) as [-> | ?]; [cbn in Hhi; lia|].
    rewrite Z.pow_neg_r in Hhi by lia. lia. }
  destruct (Z.lt_trichotomy (Zpos (digits2_pos p)) d) as [Hlt | [Heq | Hgt]];
    [exfalso | exact Heq | exfalso].
  - assert (2 ^ Zpos (digits2_pos p) <= 2 ^ (d - 1))
      by (apply Z.pow_le_mono_r; lia).
    lia.
  - assert (2 ^ d <= 2 ^ (Zpos (digits2_pos p) - 1))
      by (apply Z.pow_le_mono_r; lia).
    lia.
Qed.

Lemma iter_pos_nat {A} (f : A -> A) (p : positive) (x : A) :
  SpecFloat.iter_pos f p x = Nat.iter (Pos.to_nat p) f x.
Proof.
  revert x. induction p as [p IH | p IH |]; intros x; cbn [SpecFloat.iter_pos].
  - rewrite !IH, Pos2Nat.inj_xI.
    replace (S (2 * Pos.to_nat p)) with (Pos.to_nat p + (Pos.to_nat p + 1))%nat by lia.
    rewrite !Nat.iter_add. reflexivity.
  - rewrite !IH, Pos2Nat.inj_xO.
    replace (2 * Pos.to_nat p)%nat with (Pos.to_nat p + Pos.to_nat p)%nat by lia.
    rewrite Nat.iter_add. reflexivity.
  - reflexivity.
Qed.

(** One shift: the mantissa is halved, the round bit is the bit that fell
    off, and the sticky bit remembers the bits that fell off before. *)
Lemma shr_1_spec (m : Z) (r s : bool) :
  0 <= m ->
  shr_1 {| shr_m := m; shr_r := r; shr_s := s |}
  = {| shr_m := m / 2; shr_r := Z.odd m; shr_s := r || s |}.
Proof.
  intros Hm. rewrite <- Z.div2_div.
  destruct m as [|[p | p |]|]; try reflexivity. lia.
Qed.

(** [k] shifts, one at least: the quotient by 2^k, the bit below it, and
    whether anything is left below that bit. *)
Lemma shr_iter_spec (m : Z) (k : nat) :
  0 <= m ->
  Nat.iter (S k) shr_1 {| shr_m := m; shr_r := false; shr_s := false |}
  = {| shr_m := m / 2 ^ Z.of_nat (S k);
       shr_r := Z.odd (m / 2 ^ Z.of_nat k);
       shr_s := negb (m mod 2 ^ Z.of_nat k =? 0) |}.
Proof.
  intros Hm. induction k as [|k IH].
  - rewrite Nat.iter_succ. cbn [Nat.iter nat_rect]. rewrite shr_1_spec by exact Hm.
    change (2 ^ Z.of_nat 1) with 2. change (2 ^ Z.of_nat 0) with 1.
    rewrite Z.div_1_r, Z.mod_1_r. reflexivity.
  - rewrite Nat.iter_succ, IH.
    rewrite shr_1_spec by (apply Z.div_pos; lia).
    assert (E2 : 2 ^ Z.of_nat (S k) = 2 ^ Z.of_nat k * 2)
      by (rewrite Nat2Z.inj_succ, Z.pow_succ_r; lia).
    assert (E3 : 2 ^ Z.of_nat (S (S k)) = 2 ^ Z.of_nat (S k) * 2)
      by (rewrite (Nat2Z.inj_succ (S k)), Z.pow_succ_r; lia).
    assert (Hpos : 0 < 2 ^ Z.of_nat k) by (apply Z.pow_pos_nonneg; lia).
    f_equal.
    + rewrite E3, Z.div_div by lia. reflexivity.
    + rewrite E2, Z.rem_mul_r by lia.
      pose proof (Z.mod_pos_bound m (2 ^ Z.of_nat k) Hpos) as Hb.
      pose proof (Zmod_odd (m / 2 ^ Z.of_nat k)) as Ho.
      destruct (Z.odd (m / 2 ^ Z.of_nat k)); rewrite Ho.
      * cbn [orb]. symmetry. apply negb_true_iff, Z.eqb_neq. lia.
      * cbn [orb]. f_equal. rewrite Z.mul_0_r, Z.add_0_r. reflexivity.
Qed.

(** The rounding of the shifted mantissa is [Zrne]. *)
Lemma round_shr_spec (m : Z) (k : nat) :
  0 <= m ->
  let mrs := Nat.iter (S k) shr_1 {| shr_m := m; shr_r := false; shr_s := false |} in
  round_nearest_even (shr_m mrs) (loc_of_shr_record mrs) = Zrne m (Z.of_nat (S k)).
Proof.
  intros Hm mrs. subst mrs. rewrite shr_iter_spec by exact Hm.
  unfold Zrne. cbn [shr_m].
  assert (E2 : 2 ^ Z.of_nat (S k) = 2 ^ Z.of_nat k * 2)
    by (rewrite Nat2Z.inj_succ, Z.pow_succ_r; lia).
  assert (Hpos : 0 < 2 ^ Z.of_nat k) by (apply Z.pow_pos_nonneg; lia).
  pose proof (Z.mod_pos_bound m (2 ^ Z.of_nat k) Hpos) as Hb.
  pose proof (Zmod_odd (m / 2 ^ Z.of_nat k)) as Ho.
  assert (Er : m mod 2 ^ Z.of_nat (S k)
               = m mod 2 ^ Z.of_nat k + 2 ^ Z.of_nat k * ((m / 2 ^ Z.of_nat k) mod 2))
    by (rewrite E2 at 1; apply Z.rem_mul_r; lia).
  rewrite Er, Ho.
  destruct (Z.odd (m / 2 ^ Z.of_nat k)).
  - destruct (Z.eqb_spec (m mod 2 ^ Z.of_nat k) 0) as [E0 | E0]; cbn.
    + rewrite E0. replace (2 * (0 + 2 ^ Z.of_nat k * 1)) with (2 ^ Z.of_nat (S k)) by lia.
      rewrite Z.compare_refl. reflexivity.
    + destruct (Z.compare_spec (2 * (m mod 2 ^ Z.of_nat k + 2 ^ Z.of_nat k * 1))
                  (2 ^ Z.of_nat (S k))); [lia | lia | reflexivity].
  - destruct (Z.compare_spec (2 * (m mod 2 ^ Z.of_nat k + 2 ^ Z.of_nat k * 0))
                (2 ^ Z.of_nat (S k))); [lia | | lia].
    by destruct (m mod 2 ^ Z.of_nat k =? 0).
Qed.

Lemma Zrne_0 (m : Z) : Zrne m 0 = m.
Proof. unfold Zrne. cbn. rewrite Z.mod_1_r, Z.div_1_r. reflexivity. Qed.

(** The rounded quotient is the quotient or the next integer. *)
Lemma Zrne_cases (m n : Z) : Zrne m n = m / 2 ^ n \/ Zrne m n = m / 2 ^ n + 1.
Proof.
  unfold Zrne. destruct (2 * (m mod 2 ^ n) ?= 2 ^ n); auto.
  destruct (Z.even (m / 2 ^ n)); auto.
Qed.

(** Shifting by [n] bits and rounding, in one step. *)
Lemma shr_round_spec (m e n : Z) :
  0 <= m -> 0 <= n ->
  let '(mrs, e') := shr {| shr_m := m; shr_r := false; shr_s := false |} e n in
  round_nearest_even (shr_m mrs) (loc_of_shr_record mrs) = Zrne m n
  /\ e' = e + n.
Proof.
  intros Hm Hn. destruct n as [|p|p]; [| |lia].
  - cbn [shr shr_m loc_of_shr_record round_nearest_even]. rewrite Zrne_0. lia.
  - cbn [shr]. rewrite iter_pos_nat.
    destruct (Pos.to_nat p) as [|k] eqn:Ek; [lia|].
    rewrite (round_shr_spec m k Hm). split; [|reflexivity].
    f_equal. lia.
Qed.

End Binary64Rounding.

Section Binary64RoundAux.

Lemma fexp_normal (d e n : Z) :
  d = n + 53 -> -1074 <= e + n ->
  fexp prec emax (d + e) - e = n.
Proof. intros -> He. unfold fexp, SpecFloat.emin, prec, emax. lia. Qed.

Lemma shr_fexp_normal (P : positive) (e n : Z) :
  Zpos (digits2_pos P) = n + 53 -> -1074 <= e + n ->
  shr_fexp prec emax (Zpos P) e loc_Exact
  = shr {| shr_m := Zpos P; shr_r := false; shr_s := false |} e n.
Proof.
  intros Hd He. unfold shr_fexp. cbn [Zdigits2 shr_record_of_loc].
  by rewrite (fexp_normal _ e n Hd He).
Qed.

Lemma quotient_bounds (P n : Z) :
  0 <= n -> 2 ^ (n + 52) <= P < 2 ^ (n + 53) ->
  2 ^ 52 <= P / 2 ^ n < 2 ^ 53.
Proof.
  intros Hn [Hlo Hhi].
  assert (Hpos : 0 < 2 ^ n) by (apply Z.pow_pos_nonneg; lia).
  rewrite !Z.pow_add_r in * by lia. split.
  - apply Z.div_le_lower_bound; lia.
  - apply Z.div_lt_upper_bound; lia.
Qed.

(** Rounding a mantissa of n + 53 bits to the 53 bits of binary64: the
    mantissa becomes [Zrne P n], the exponent goes up by [n], and by one
    more when the rounding carries into a 54th bit. *)
Lemma binary_round_aux_spec (sx : bool) (P : positive) (ex n : Z) :
  0 <= n -> Zpos (digits2_pos P) = n + 53 ->
  -1074 <= ex + n -> ex + n + 1 <= 971 ->
  2 ^ 52 <= Zrne (Zpos P) n <= 2 ^ 53
  /\ binary_round_aux prec emax sx (Zpos P) ex loc_Exact
     = if Zrne (Zpos P) n <? 2 ^ 53
       then S754_finite sx (Z.to_pos (Zrne (Zpos P) n)) (ex + n)
       else S754_finite sx (Z.to_pos (2 ^ 52)) (ex + n + 1).
Proof.
  intros Hn Hd Hlo Hhi.
  assert (HK : 2 ^ 52 <= Zrne (Zpos P) n <= 2 ^ 53).
  { pose proof (digits2_pos_bounds P) as HP. rewrite Hd in HP.
    replace (n + 53 - 1) with (n + 52) in HP by lia.
    pose proof (quotient_bounds (Zpos P) n Hn HP).
    destruct (Zrne_cases (Zpos P) n) as [-> | ->]; lia. }
  split; [exact HK|].
  unfold binary_round_aux. rewrite (shr_fexp_normal P ex n Hd Hlo).
  pose proof (shr_round_spec (Zpos P) ex n ltac:(lia) Hn) as Hs.
  destruct (shr {| shr_m := Zpos P; shr_r := false; shr_s := false |} ex n)
    as [mrs e1].
  destruct Hs as [-> ->].
  set (K := Zrne (Zpos P) n) in *.
  destruct (Z.ltb_spec K (2 ^ 53)) as [Hlt | Hge].
  - destruct K as [|Kp|Kp] eqn:EK; try lia.
    rewrite (shr_fexp_normal Kp (ex + n) 0).
    + cbn [shr shr_m]. rewrite Pos2Z.id || idtac.
      assert (E : (ex + n <=? emax - prec) = true)
        by (apply Z.leb_le; unfold emax, prec; lia).
      rewrite E. reflexivity.
    + apply digits2_pos_unique. cbn in HK. lia.
    + lia.
  - assert (EK : K = 2 ^ 53) by lia. rewrite EK.
    unfold shr_fexp.
    change (Zdigits2 (2 ^ 53)) with 54.
    replace (fexp prec emax (54 + (ex + n)) - (ex + n)) with 1
      by (unfold fexp, SpecFloat.emin, prec, emax; lia).
    cbn [shr_record_of_loc shr SpecFloat.iter_pos]. 
    change (shr_1 {| shr_m := 2 ^ 53; shr_r := false; shr_s := false |})
      with {| shr_m := 2 ^ 52; shr_r := false; shr_s := false |}.
    cbn [shr_m].
    assert (E : (ex + n + 1 <=? emax - prec) = true)
      by (apply Z.leb_le; unfold emax, prec; lia).
    change (2 ^ 52) with (Zpos (Z.to_pos (2 ^ 52))) at 1.
    cbv iota. rewrite E. reflexivity.
Qed.

End Binary64RoundAux.

(** ** np.rint in binary64 *)

Section Binary64Rint.

Lemma pos_iter_xO (q d : positive) : Zpos (Pos.iter xO q d) = Zpos q * 2 ^ Zpos d.
Proof.
  induction d as [|d IH] using Pos.peano_ind.
  - cbn [Pos.iter]. rewrite Pos2Z.inj_xO. change (2 ^ 1) with 2. lia.
  - rewrite Pos.iter_succ, Pos2Z.inj_xO, IH, Pos2Z.inj_succ, Z.pow_succ_r by lia. lia.
Qed.


(** A valid mantissa has at most 53 bits, and its exponent is -1074 at
    least. *)
Lemma valid_finite (x : float) (s : bool) (m : positive) (e : Z) :
  Prim2SF x = S754_finite s m e ->
  Zpos m < 2 ^ 53 /\ -1074 <= e <= 971.
Proof.
  intros E. pose proof (Prim2SF_valid x) as Hv. rewrite E in Hv.
  cbn [valid_binary] in Hv. unfold bounded, canonical_mantissa in Hv.
  apply andb_prop in Hv as [Hc He]. apply Z.eqb_eq in Hc. apply Z.leb_le in He.
  unfold fexp, SpecFloat.emin, prec, emax in *.
  pose proof (digits2_pos_bounds m) as [Hlo _].
  assert (Hd : Zpos (digits2_pos m) <= 53) by lia.
  split; [|lia].
  pose proof (digits2_pos_bounds m) as [_ Hhi].
  assert (2 ^ Zpos (digits2_pos m) <= 2 ^ 53) by (apply Z.pow_le_mono_r; lia).
  lia.
Qed.



Lemma of_Z_spec (k : Z) :
  0 <= k < 2 ^ 63 ->
  Prim2SF (Binary64.of_Z k) = binary_normalize prec emax k 0 false.
Proof.
  intros Hk. destruct k as [|p|p]; [reflexivity | | lia].
  cbn [Binary64.of_Z]. rewrite of_uint63_spec, Uint63.of_Z_spec.
  rewrite Z.mod_small; [reflexivity|].
  change wB with (2 ^ 63). lia.
Qed.


End Binary64Rint.

(** ** The nearest integer, in the rationals *)

Section NearestInteger.
Local Open Scope Q_scope.







End NearestInteger.

(** ** np.rint and round(x, 2) in binary64 *)

Section Binary64Round2.





End Binary64Round2.

(** ** The rank of the percentile in binary64

    The virtual index (n - 1) * (95 / 100) is computed in float64, from a
    quotient that is not 0.95 exactly.  For every length that matters its
    floor is nevertheless that of the exact rank 0.95 * (n - 1), and it is
    below n - 1. *)

Section Binary64Rank.

Lemma Zrne_near (P n : Z) :
  0 <= n -> 2 * P - 2 ^ n <= 2 * (2 ^ n * Zrne P n) <= 2 * P + 2 ^ n.
Proof.
  intros Hn. unfold Zrne.
  assert (Hpos : 0 < 2 ^ n) by (apply Z.pow_pos_nonneg; lia).
  pose proof (Z.div_mod P (2 ^ n) ltac:(lia)) as Hdm.
  pose proof (Z.mod_pos_bound P (2 ^ n) Hpos) as Hr.
  set (A := 2 ^ n) in *. set (q := P / A) in *. set (r := P mod A) in *.
  destruct (Z.compare_spec (2 * r) A) as [E | E | E].
  - destruct (Z.even q); lia.
  - lia.
  - lia.
Qed.

Lemma Prim2SF_quantile :
  Prim2SF (PrimFloat.div (Binary64.of_Z 95) (Binary64.of_Z 100))
  = S754_finite false mantissa95 (-53).
Proof. vm_compute. reflexivity. Qed.

(** An integer below 2^53 is a float: its mantissa is the integer shifted
    to 53 bits. *)
Lemma of_Z_normal (p : positive) :
  Zpos p < 2 ^ 53 ->
  let d := Zpos (digits2_pos p) in
  exists Mm : positive,
    Zpos Mm = Zpos p * 2 ^ (53 - d)
    /\ 2 ^ 52 <= Zpos Mm < 2 ^ 53
    /\ Prim2SF (Binary64.of_Z (Zpos p)) = S754_finite false Mm (d - 53).
Proof.
  intros Hp d.
  pose proof (digits2_pos_bounds p) as Hb. fold d in Hb.
  assert (Hd : 1 <= d <= 53).
  { split; [unfold d; lia|].
    destruct (Z.leb_spec d 53); [done|].
    assert (2 ^ 53 <= 2 ^ (d - 1)) by (apply Z.pow_le_mono_r; lia). lia. }
  assert (Hshift : exists Mm : positive,
             Zpos Mm = Zpos p * 2 ^ (53 - d)
             /\ shl_align p 0 (d - 53) = (Mm, d - 53)).
  { unfold shl_align. rewrite Z.sub_0_r.
    destruct (d - 53) as [|k|k] eqn:Ek; [| lia |].
    - exists p. replace (53 - d) with 0 by lia. split; [lia | reflexivity].
    - exists (Pos.iter xO p k). split; [|reflexivity].
      rewrite pos_iter_xO. f_equal. f_equal. lia. }
  destruct Hshift as (Mm & EMm & Eshl).
  assert (HMm : 2 ^ 52 <= Zpos Mm < 2 ^ 53).
  { rewrite EMm.
    assert (E52 : 2 ^ 52 = 2 ^ (d - 1) * 2 ^ (53 - d))
      by (rewrite <- Z.pow_add_r by lia; f_equal; lia).
    assert (E53 : 2 ^ 53 = 2 ^ d * 2 ^ (53 - d))
      by (rewrite <- Z.pow_add_r by lia; f_equal; lia).
    assert (0 < 2 ^ (53 - d)) by (apply Z.pow_pos_nonneg; lia).
    rewrite E52, E53. split.
    - apply Z.mul_le_mono_nonneg_r; lia.
    - apply Z.mul_lt_mono_pos_r; lia. }
  exists Mm. split; [exact EMm|]. split; [exact HMm|].
  rewrite of_Z_spec by lia.
  cbn [binary_normalize]. unfold binary_round. fold d.
  replace (fexp prec emax (d + 0)) with (d - 53)
    by (unfold fexp, SpecFloat.emin, prec, emax; lia).
  rewrite Eshl.
  assert (Hdig : Zpos (digits2_pos Mm) = 0 + 53)
    by (apply digits2_pos_unique; cbn [Z.add Z.sub]; exact HMm).
  destruct (binary_round_aux_spec false Mm (d - 53) 0 ltac:(lia) Hdig
              ltac:(lia) ltac:(lia)) as [_ ->].
  rewrite Zrne_0.
  destruct (Z.ltb_spec (Zpos Mm) (2 ^ 53)); [|lia].
  rewrite Pos2Z.id || idtac. cbn [Z.to_pos]. f_equal. lia.
Qed.

(** The arithmetic of the rank: [K] is the product of the mantissa [Mm] of
    n - 1 and that of 95 / 100, rounded to 53 bits by dropping [ns] bits,
    and [W] is the weight 2^(53 - d) of the mantissa of n - 1. *)
Lemma rank_arith (m W K ns : Z) :
  1 <= m -> 16 <= W ->
  2 ^ 52 <= m * W < 2 ^ 53 ->
  ns = 52 \/ ns = 53 ->
  2 ^ (ns + 52) <= m * W * Zpos mantissa95 < 2 ^ (ns + 53) ->
  K = Zrne (m * W * Zpos mantissa95) ns ->
  let k := 95 * m / 100 in
  let T := W * 2 ^ (53 - ns) in
  k * T <= K < (k + 1) * T
  /\ (ns = 53 -> K < m * W)
  /\ (K = 2 ^ 53 -> 2 ^ 52 < m * W).
Proof.
  intros Hm HW HMm Hns HP EK k T.
  pose proof (Zrne_near (m * W * Zpos mantissa95) ns ltac:(lia)) as Hnear.
  rewrite <- EK in Hnear.
  assert (Hk : 20 * k <= 19 * m <= 20 * k + 19).
  { unfold k. pose proof (Z.div_mod (95 * m) 100 ltac:(lia)) as Hdm.
    pose proof (Z.mod_pos_bound (95 * m) 100 ltac:(lia)) as Hr. lia. }
  assert (HkW : 20 * (k * W) <= 19 * (m * W) <= 20 * (k * W) + 19 * W) by nia.
  set (Mm := m * W) in *. set (U := k * W) in *.
  unfold mantissa95 in *.
  destruct Hns as [-> | ->]; subst T;
    [change (2 ^ (53 - 52)) with 2 | change (2 ^ (53 - 53)) with 1];
    change (2 ^ (52 + 52)) with 20282409603651670423947251286016 in HP;
    change (2 ^ (52 + 53)) with 40564819207303340847894502572032 in HP;
    change (2 ^ (53 + 52)) with 40564819207303340847894502572032 in HP;
    change (2 ^ (53 + 53)) with 81129638414606681695789005144064 in HP;
    change (2 ^ 52) with 4503599627370496 in *;
    change (2 ^ 53) with 9007199254740992 in *;
    replace (k * (W * 2)) with (2 * U) by (unfold U; lia);
    replace ((k + 1) * (W * 2)) with (2 * U + 2 * W) by (unfold U; lia);
    replace (k * (W * 1)) with U by (unfold U; lia);
    replace ((k + 1) * (W * 1)) with (U + W) by (unfold U; lia);
    repeat split; try lia.
Qed.

(** The rank as numpy computes it, for n - 1 = [p] below 2^49. *)
Lemma rank95_spec (p : positive) :
  Zpos p < 2 ^ 49 ->
  exists (Mm : positive) (d ns K : Z),
    1 <= d <= 49
    /\ Zpos Mm = Zpos p * 2 ^ (53 - d)
    /\ Prim2SF (Binary64.of_Z (Zpos p)) = S754_finite false Mm (d - 53)
    /\ (ns = 52 \/ ns = 53)
    /\ 2 ^ 52 <= K <= 2 ^ 53
    /\ (let k := 95 * Zpos p / 100 in
        let T := 2 ^ (53 - d) * 2 ^ (53 - ns) in
        k * T <= K < (k + 1) * T)
    /\ (ns = 53 -> K < Zpos Mm)
    /\ (K = 2 ^ 53 -> 2 ^ 52 < Zpos Mm)
    /\ Prim2SF (rank95 (Zpos p + 1))
       = if K <? 2 ^ 53
         then S754_finite false (Z.to_pos K) (d - 106 + ns)
         else S754_finite false (Z.to_pos (2 ^ 52)) (d - 106 + ns + 1).
Proof.
  intros Hp.
  destruct (of_Z_normal p ltac:(lia)) as (Mm & EMm & HMm & Eof).
  set (d := Zpos (digits2_pos p)) in *.
  assert (Hd : 1 <= d <= 49).
  { pose proof (digits2_pos_bounds p) as Hb. fold d in Hb.
    split; [unfold d; lia|].
    destruct (Z.leb_spec d 49); [done|].
    assert (2 ^ 49 <= 2 ^ (d - 1)) by (apply Z.pow_le_mono_r; lia). lia. }
  set (P := (Mm * mantissa95)%positive).
  assert (EP : Zpos P = Zpos Mm * Zpos mantissa95) by apply Pos2Z.inj_mul.
  assert (HP : 2 ^ 104 <= Zpos P < 2 ^ 106).
  { rewrite EP. unfold mantissa95.
    change (2 ^ 104) with 20282409603651670423947251286016.
    change (2 ^ 106) with 81129638414606681695789005144064.
    change (2 ^ 52) with 4503599627370496 in HMm.
    change (2 ^ 53) with 9007199254740992 in HMm. lia. }
  set (D := Zpos (digits2_pos P)).
  pose proof (digits2_pos_bounds P) as HD. fold D in HD.
  assert (HDv : D = 105 \/ D = 106).
  { assert (104 < D).
    { destruct (Z.ltb_spec 104 D); [done|].
      assert (2 ^ D <= 2 ^ 104) by (apply Z.pow_le_mono_r; lia). lia. }
    assert (D - 1 < 106).
    { destruct (Z.ltb_spec (D - 1) 106); [done|].
      assert (2 ^ 106 <= 2 ^ (D - 1)) by (apply Z.pow_le_mono_r; lia). lia. }
    lia. }
  set (ns := D - 53).
  assert (Hns : ns = 52 \/ ns = 53) by (unfold ns; lia).
  assert (Hdig : Zpos (digits2_pos P) = ns + 53) by (fold D; unfold ns; lia).
  destruct (binary_round_aux_spec false P (d - 106) ns ltac:(lia) Hdig
              ltac:(lia) ltac:(lia)) as [HK Hround].
  set (K := Zrne (Zpos P) ns) in *.
  assert (HPns : 2 ^ (ns + 52) <= Zpos p * 2 ^ (53 - d) * Zpos mantissa95
                 < 2 ^ (ns + 53)).
  { rewrite <- EMm, <- EP.
    replace (ns + 52) with (D - 1) by (unfold ns; lia).
    replace (ns + 53) with D by (unfold ns; lia). exact HD. }
  assert (HW : 16 <= 2 ^ (53 - d)).
  { change 16 with (2 ^ 4). apply Z.pow_le_mono_r; lia. }
  destruct (rank_arith (Zpos p) (2 ^ (53 - d)) K ns ltac:(lia) HW
              ltac:(rewrite <- EMm; exact HMm) Hns HPns
              ltac:(unfold K; rewrite EP, EMm; reflexivity))
    as (Hfloor & Hlt & Hcarry).
  exists Mm, d, ns, K.
  split; [exact Hd|]. split; [exact EMm|]. split; [exact Eof|].
  split; [exact Hns|]. split; [exact HK|]. split; [exact Hfloor|].
  split; [by rewrite EMm|]. split; [by rewrite EMm|].
  unfold rank95. replace (Zpos p + 1 - 1) with (Zpos p) by lia.
  rewrite FloatAxioms.mul_spec, Eof, Prim2SF_quantile.
  unfold SF64mul, SFmul. cbn [xorb].
  replace (d - 53 + -53) with (d - 106) by lia.
  exact Hround.
Qed.

(** For every length from 2 to 2^49 the float64 rank has the floor of the
    exact rank, is below n - 1 and is not negative. *)
Lemma rank95_agrees_holds (n : Z) : 2 <= n <= max_length -> rank95_agrees n = true.
Proof.
  intros Hn. unfold max_length in Hn.
  destruct (n - 1) as [|p|p] eqn:Ep; try lia.
  assert (En : n = Zpos p + 1) by lia.
  destruct (rank95_spec p ltac:(lia))
    as (Mm & d & ns & K & Hd & EMm & Eof & Hns & HK & Hfloor & Hlt & Hcarry & Ev).
  destruct (valid_finite _ _ _ _ Eof) as [HMm _].
  unfold rank95_agrees. rewrite Ep, <- En in *.
  rewrite FloatAxioms.leb_spec, FloatAxioms.ltb_spec, Eof.
  unfold Binary64.floor. rewrite Ev.
  change (Prim2SF PrimFloat.zero) with (S754_zero false).
  cbv zeta in Hfloor.
  set (k := 95 * Zpos p / 100) in *.
  assert (Ek : rank95_floor n = k) by (unfold rank95_floor; rewrite Ep; reflexivity).
  rewrite Ek.
  assert (HT : 2 ^ (53 - d) * 2 ^ (53 - ns) = 2 ^ (106 - d - ns))
    by (rewrite <- Z.pow_add_r by lia; f_equal; lia).
  rewrite HT in Hfloor.
  assert (Hpos : 0 < 2 ^ (106 - d - ns)) by (apply Z.pow_pos_nonneg; lia).
  destruct (Z.ltb_spec K (2 ^ 53)) as [HK53 | HK53].
  - destruct (Z.leb_spec 0 (d - 106 + ns)); [lia|].
    rewrite Z2Pos.id by lia.
    rewrite Z.shiftr_div_pow2 by lia.
    replace (- (d - 106 + ns)) with (106 - d - ns) by lia.
    assert (Ediv : K / 2 ^ (106 - d - ns) = k).
    { symmetry. apply (Z.div_unique K _ k (K - 2 ^ (106 - d - ns) * k)); lia. }
    rewrite Ediv, Z.eqb_refl. cbn [andb].
    unfold SFleb, SFltb. cbn [SFcompare].
    change (Pos.compare_cont Eq Mm (Z.to_pos K)) with (Pos.compare Mm (Z.to_pos K)).
    destruct Hns as [-> | ->].
    + destruct (Z.compare_spec (d - 53) (d - 106 + 52)); try lia; reflexivity.
    + destruct (Z.compare_spec (d - 53) (d - 106 + 53)); try lia.
      destruct (Pos.compare_spec Mm (Z.to_pos K)) as [E | E | E]; try reflexivity.
      * assert (Zpos Mm = K) by (rewrite E, Z2Pos.id; lia). lia.
      * assert (Zpos Mm < K) by (rewrite <- (Z2Pos.id K) by lia; exact E). lia.
  - assert (EK : K = 2 ^ 53) by lia.
    destruct Hns as [-> | ->]; [|specialize (Hlt eq_refl); lia].
    destruct (Z.leb_spec 0 (d - 106 + 52 + 1)); [lia|].
    rewrite Z.shiftr_div_pow2 by lia.
    replace (- (d - 106 + 52 + 1)) with (106 - d - 52 - 1) by lia.
    assert (Epow : 2 ^ (106 - d - 52) = 2 * 2 ^ (106 - d - 52 - 1)).
    { rewrite <- Z.pow_succ_r by lia. f_equal. lia. }
    assert (Hpos' : 0 < 2 ^ (106 - d - 52 - 1)) by (apply Z.pow_pos_nonneg; lia).
    assert (Ediv : Zpos (Z.to_pos (2 ^ 52)) / 2 ^ (106 - d - 52 - 1) = k).
    { symmetry.
      apply (Z.div_unique _ _ k
               (Zpos (Z.to_pos (2 ^ 52)) - 2 ^ (106 - d - 52 - 1) * k)); [|lia].
      change (Zpos (Z.to_pos (2 ^ 52))) with (2 ^ 52).
      change (2 ^ 53) with (2 * 2 ^ 52) in EK. lia. }
    rewrite Ediv, Z.eqb_refl. cbn [andb].
    unfold SFleb, SFltb. cbn [SFcompare].
    change (Pos.compare_cont Eq Mm (Z.to_pos (2 ^ 52)))
      with (Pos.compare Mm (Z.to_pos (2 ^ 52))).
    destruct (Z.compare_spec (d - 53) (d - 106 + 52 + 1)); try lia.
    specialize (Hcarry EK).
    destruct (Pos.compare_spec Mm (Z.to_pos (2 ^ 52))) as [E | E | E];
      try reflexivity.
    * rewrite E in Hcarry. change (Zpos (Z.to_pos (2 ^ 52))) with (2 ^ 52) in Hcarry. lia.
    * assert (Zpos Mm < 2 ^ 52) by exact E. lia.
Qed.

End Binary64Rank.

(** ** The percentile in binary64 *)

Section Binary64Percentile.

Lemma lerp_same (a a' b b' t : float) :
  same_number a a' -> same_number b b' ->
  same_number (lerp a b t) (lerp a' b' t).
Proof.
  intros Ha Hb. unfold lerp. cbn [add sub mul div leb of_Z binary64].
  destruct (PrimFloat.leb _ t).
  - apply sub_same; [exact Hb|].
    apply mul_same; [by apply sub_same | apply same_number_refl].
  - apply add_same; [exact Ha|].
    apply mul_same; [by apply sub_same | apply same_number_refl].
Qed.

Lemma round2_same (x y : float) :
  same_number x y -> same_number (round2 x) (round2 y).
Proof.
  apply (same_number_unary round2). right. vm_compute. reflexivity.
Qed.

(** A list that holds a nan has the nan as its percentile. *)
Lemma percentile_of_has_nan (a : list float) (q d : float) :
  PrimFloat.nan ∈ a -> percentile_of a q d = PrimFloat.nan.
Proof. intros Hin. unfold percentile_of. by rewrite find_isnan_has_nan. Qed.

Lemma rank95_floor_range (n : Z) : 2 <= n -> 0 <= rank95_floor n <= n - 2.
Proof.
  intros Hn. unfold rank95_floor. split.
  - apply Z.div_pos; lia.
  - assert (95 * (n - 1) / 100 < n - 1); [|lia].
    apply Z.div_lt_upper_bound; lia.
Qed.

(** The percentile of two numbers and more: the interpolation at the floor
    of the rank. *)
Lemma percentile_of_numbers (a : list float) (d : float) :
  let n := Z.of_nat (length a) in
  Forall is_number a -> 2 <= n <= max_length ->
  percentile_of a (of_Z 95) d
  = lerp (nth (Z.to_nat (rank95_floor n)) (np_sort a) d)
         (nth (Z.to_nat (rank95_floor n + 1)) (np_sort a) d)
         (PrimFloat.sub (rank95 n) (Binary64.of_Z (rank95_floor n))).
Proof.
  intros n Ha Hn. unfold percentile_of. rewrite (find_isnan_numbers a Ha).
  fold n. cbn [mul div of_Z leb ltb floor sub binary64].
  change (PrimFloat.mul (Binary64.of_Z (n - 1))
            (PrimFloat.div (Binary64.of_Z 95) (Binary64.of_Z 100)))
    with (rank95 n).
  pose proof (rank95_agrees_holds n Hn) as Hc. unfold rank95_agrees in Hc.
  apply andb_prop in Hc as [Hc Hbelow]. apply andb_prop in Hc as [Hfloor Habove].
  apply Z.eqb_eq in Hfloor. apply negb_true_iff in Habove, Hbelow.
  change (Binary64.of_Z 0) with PrimFloat.zero.
  rewrite Hbelow, Habove, Hfloor.
  pose proof (rank95_floor_range n ltac:(lia)) as Hk.
  unfold item.
  destruct (Z.ltb_spec (rank95_floor n) 0); [lia|].
  destruct (Z.ltb_spec (rank95_floor n + 1) 0); [lia|].
  reflexivity.
Qed.

(** The percentile of one number: numpy takes the last element twice, with
    gamma 1. *)
Lemma percentile_of_one (x d : float) :
  is_number x -> percentile_of [x] (of_Z 95) d = lerp x x 1%float.
Proof.
  intros Hx. unfold percentile_of.
  rewrite (find_isnan_numbers [x]) by (by repeat constructor).
  reflexivity.
Qed.

Lemma sub_diag_finite (x : float) (s : bool) (m : positive) (e : Z) :
  Prim2SF x = S754_finite s m e -> PrimFloat.sub x x = PrimFloat.zero.
Proof.
  intros E. apply Prim2SF_inj. rewrite FloatAxioms.sub_spec, E.
  unfold SF64sub, SFsub. rewrite Z.sub_diag. reflexivity.
Qed.

Lemma add_zero_finite (x : float) (s : bool) (m : positive) (e : Z) :
  Prim2SF x = S754_finite s m e -> PrimFloat.add x PrimFloat.zero = x.
Proof.
  intros E. apply Prim2SF_inj. rewrite FloatAxioms.add_spec, E. reflexivity.
Qed.

Lemma sub_zero_finite (x : float) (s : bool) (m : positive) (e : Z) :
  Prim2SF x = S754_finite s m e -> PrimFloat.sub x PrimFloat.zero = x.
Proof.
  intros E. apply Prim2SF_inj. rewrite FloatAxioms.sub_spec, E. reflexivity.
Qed.

(** Between an element and itself, gamma 1 and gamma 0 give the same
    number. *)
Lemma lerp_diag (x : float) : same_number (lerp x x 1%float) (lerp x x 0%float).
Proof.
  destruct (Prim2SF x) as [s | s | | s m e] eqn:E.
  - assert (Hx : x = PrimFloat.zero \/ x = PrimFloat.neg_zero).
    { destruct s; [right | left]; apply Prim2SF_inj; by rewrite E. }
    destruct Hx as [-> | ->]; right; vm_compute; reflexivity.
  - assert (Hx : x = PrimFloat.infinity \/ x = PrimFloat.neg_infinity).
    { destruct s; [right | left]; apply Prim2SF_inj; by rewrite E. }
    destruct Hx as [-> | ->]; left; vm_compute; reflexivity.
  - assert (Hx : x = PrimFloat.nan) by (apply Prim2SF_inj; by rewrite E).
    rewrite Hx. left. vm_compute. reflexivity.
  - left. unfold lerp. cbn [add sub mul div leb of_Z binary64].
    rewrite (sub_diag_finite x s m e E).
    change (PrimFloat.leb (PrimFloat.div (Binary64.of_Z 1) (Binary64.of_Z 2)) 1)
      with true.
    change (PrimFloat.leb (PrimFloat.div (Binary64.of_Z 1) (Binary64.of_Z 2)) 0)
      with false.
    change (PrimFloat.mul PrimFloat.zero (PrimFloat.sub (Binary64.of_Z 1) 1))
      with PrimFloat.zero.
    change (PrimFloat.mul PrimFloat.zero 0) with PrimFloat.zero.
    cbv iota.
    by rewrite (sub_zero_finite x s m e E), (add_zero_finite x s m e E).
Qed.

(** The percentile is the interpolation in the sorted values, whatever
    ascending arrangement of the values is taken for them. *)
Lemma percentile_of_interpolate (a sorted_values : list float) (d : float) :
  Forall is_number a ->
  1 <= Z.of_nat (length a) <= max_length ->
  sorted_values ≡ₚ a -> ascending sorted_values ->
  same_number (percentile_of a (of_Z 95) d) (interpolate sorted_values).
Proof.
  intros Ha Hn Hp Hs.
  assert (Hlen : length sorted_values = length a) by apply Permutation_length, Hp.
  assert (Hsame : Forall2 same_number (np_sort a) sorted_values).
  { rewrite <- (np_sort_ascending sorted_values Hs).
    apply np_sort_perm_same; [by symmetry | exact Ha]. }
  unfold interpolate. rewrite Hlen.
  destruct (decide (Z.of_nat (length a) = 1)) as [H1 | H1].
  - destruct a as [|x [|y a]]; try (cbn in H1; lia).
    destruct sorted_values as [|x' [|y' sorted_values]]; try discriminate Hlen.
    apply Permutation_singleton_r in Hp. injection Hp as ->.
    rewrite percentile_of_one by (by inversion Ha).
    apply lerp_diag.
  - rewrite percentile_of_numbers by (done || lia).
    pose proof (rank95_floor_range (Z.of_nat (length a)) ltac:(lia)) as Hk.
    rewrite Z.min_l by lia.
    apply lerp_same; apply Forall2_same_nth; try exact Hsame;
      rewrite np_sort_length; lia.
Qed.

(** The percentile does not depend on the order of the values. *)
Lemma percentile_of_perm (a a' : list float) (d d' : float) :
  a ≡ₚ a' -> 1 <= Z.of_nat (length a) <= max_length ->
  same_number (percentile_of a (of_Z 95) d) (percentile_of a' (of_Z 95) d').
Proof.
  intros Hp Hn.
  destruct (find_isnan_cases a) as [[_ Hin] | [_ Ha]].
  - rewrite !percentile_of_has_nan; [apply same_number_refl | by rewrite <- Hp | done].
  - assert (Ha' : Forall is_number a') by (by rewrite <- Hp).
    assert (Hlen : length a' = length a) by (symmetry; apply Permutation_length, Hp).
    destruct (decide (Z.of_nat (length a) = 1)) as [H1 | H1].
    + destruct a as [|x [|y a]]; try (cbn in H1; lia).
      apply Permutation_singleton_l in Hp. subst a'.
      rewrite !percentile_of_one by (by inversion Ha).
      apply same_number_refl.
    + rewrite !percentile_of_numbers by (done || lia).
      pose proof (rank95_floor_range (Z.of_nat (length a)) ltac:(lia)) as Hk.
      rewrite Hlen.
      apply lerp_same; apply Forall2_same_nth;
        try (by apply np_sort_perm_same);
        rewrite np_sort_length; lia.
Qed.

End Binary64Percentile.
(** * Part 3: the properties of the specification *)

Example example_binary64_metrics :
  compute example_binary64 140%float
  = Ok {| avg_latency := 150%float; p95_latency := 195%float;
          avg_uptime := 0.95%float; breaches := 2 |}.
Proof. vm_compute. reflexivity. Qed.

Example uneven_metrics :
  compute uneven 120%float
  = Ok {| avg_latency := 152%float; p95_latency := 234%float;
          avg_uptime := 1%float; breaches := 3 |}.
Proof. vm_compute. reflexivity. Qed.

(** ** Means *)




(** ** The percentile *)

(** C2, counterexample.  With a nan among the latencies the percentile is
    nan, whatever the rank: of 21 latencies of 100 and one nan, in this
    order, which is ascending with the nan last as numpy sorts, the rank
    0.95 * 21 = 19.95 lies between two values 100, and the interpolation
    there is 100; p95_latency is nan.  And the rounding to 2 decimals is not
    to the nearest: the one latency 2.675 (the float, which is below 2.675)
    has p95_latency 2.68. *)
Lemma C2_counterexample :
  (exists r,
      compute with_nan 0%float = Ok r
      /\ p95_latency r = PrimFloat.nan
      /\ round2 (interpolate (latency_ms <$> with_nan)) = 100%float)
  /\ (exists (r : RegionMetrics float) (latency p95 : Q),
        compute [halfway] 0%float = Ok r
        /\ float_value (latency_ms halfway) = Some latency
        /\ float_value (p95_latency r) = Some p95
        /\ (latency < 2675 # 1000)%Q
        /\ (1 # 200 < p95 - latency)%Q).
Proof.
  split.
  - eexists. split; [apply compute_ok|]. split; vm_compute; reflexivity.
  - do 3 eexists. split; [apply compute_ok|].
    split; [vm_compute; reflexivity|].
    split; [vm_compute; reflexivity|].
    split; vm_compute; reflexivity.
Qed.

(** C2, amended.  On a non-empty sequence of at most 2^49 samples none of
    whose latencies is nan, p95_latency is, up to the sign of a zero,
    [round2] (the rounding of C1) of the 95th percentile of the latency_ms
    values by linear interpolation: with the values in ascending order,
    whatever ascending arrangement is taken, and the rank 0.95 * (n - 1),
    it is numpy's interpolation [lerp] between the value at the floor of the
    rank and the next value (the last value twice when it has no next) by
    the fraction of the rank, the floor being that of the exact rank and the
    fraction that of the float64 product (n - 1) * (95 / 100).  When a
    latency is nan, p95_latency is nan.  For the samples {100,0.99},
    {150,0.95}, {200,0.90} it is 195.0; for the latencies 250, 100, 110,
    130, 170 it is 234.0; and for the twelve latencies 10, 20, ..., 120 it
    is 114.5.  Which formula numpy's interpolation takes shows in the last
    digit between the values 1 and 1e16: a + (b - a) * t below one half
    (4499999999999994.0 among twelve values), and b - (b - a) * (1 - t)
    from one half on (5999999999999996.0 among nine). *)
Theorem C2_p95_is_interpolated_percentile :
  (forall (s : Sample float) (samples : list (Sample float)) (threshold : float)
          (sorted_values : list float),
      Forall (fun s' => PrimFloat.is_nan (latency_ms s') = false) (s :: samples) ->
      Z.of_nat (length (s :: samples)) <= max_length ->
      sorted_values ≡ₚ latency_ms <$> s :: samples ->
      ascending sorted_values ->
      exists r,
        compute (s :: samples) threshold = Ok r
        /\ same_number (p95_latency r) (round2 (interpolate sorted_values)))
  /\ (forall (s : Sample float) (samples : list (Sample float)) (threshold : float),
      s ∈ samples -> PrimFloat.is_nan (latency_ms s) = true ->
      exists r,
        compute samples threshold = Ok r /\ p95_latency r = PrimFloat.nan)
  /\ (exists r, compute example_binary64 140%float = Ok r
                /\ p95_latency r = 195%float)
  /\ (exists r, compute uneven 120%float = Ok r
                /\ p95_latency r = 234%float)
  /\ (exists r, compute twelve 0%float = Ok r
                /\ p95_latency r = 114.5%float)
  /\ (exists r, compute wide 0%float = Ok r
                /\ p95_latency r = 4499999999999994%float)
  /\ (exists r, compute nine 0%float = Ok r
                /\ p95_latency r = 5999999999999996%float).
Proof.
  split; [|split; [|split; [|split; [|split; [|split]]]]].
  - intros s samples threshold sorted_values Hnum Hlen Hp Hs.
    eexists. split; [apply compute_cons|].
    cbn [p95_latency]. apply round2_same.
    apply percentile_of_interpolate; [| | exact Hp | exact Hs].
    + apply Forall_fmap. eapply Forall_impl; [exact Hnum|].
      intros s' Hs'. by apply is_nan_number.
    + rewrite length_fmap. cbn [length] in *. lia.
  - intros s samples threshold Hin Hnan.
    eexists. split; [apply compute_ok|].
    destruct samples as [|s0 samples]; [by inversion Hin|].
    cbn [region_metrics p95_latency].
    apply is_nan_eq in Hnan.
    rewrite percentile_of_has_nan; [apply round2_nan|].
    rewrite <- Hnan. by apply list_elem_of_fmap_2.
  - eexists. split; [apply example_binary64_metrics | reflexivity].
  - eexists. split; [apply uneven_metrics | reflexivity].
  - eexists. split; [apply compute_ok | vm_compute; reflexivity].
  - eexists. split; [apply compute_ok | vm_compute; reflexivity].
  - eexists. split; [apply compute_ok | vm_compute; reflexivity].
Qed.

Lemma C2_witness :
  exists r,
    compute uneven 120%float = Ok r
    /\ same_number (p95_latency r)
         (round2 (interpolate [100; 110; 130; 170; 250]%float)).
Proof.
  destruct C2_p95_is_interpolated_percentile as [Hany _].
  apply (Hany {| latency_ms := 250%float; uptime := 1%float |}
           [ {| latency_ms := 100; uptime := 1 |};
             {| latency_ms := 110; uptime := 1 |};
             {| latency_ms := 130; uptime := 1 |};
             {| latency_ms := 170; uptime := 1 |} ]%float
           120%float [100; 110; 130; 170; 250]%float).
  - repeat constructor.
  - vm_compute. discriminate.
  - symmetry. apply (Permutation_cons_append [100; 110; 130; 170]%float 250%float).
  - repeat constructor.
Defined.

(** ** Breaches *)

(** C3.  For every sequence of samples and every threshold (of any sign),
    breaches is the number of samples whose latency_ms is strictly above the
    threshold; a latency equal to the threshold is not above it. *)
Theorem C3_breaches_counts_strictly_above :
  forall (F : Type) (A : Arith F) (O : ArithOrder F)
         (samples : list (Sample F)) (threshold : F),
    (exists r,
        compute samples threshold = Ok r
        /\ breaches r
           = Z.of_nat (length (filter (fun s => ltb threshold (latency_ms s) = true)
                                 samples)))
    /\ ltb threshold threshold = false.
Proof.
  intros F A O samples threshold. split; [|apply ltb_irrefl].
  eexists. split; [apply compute_ok | apply breaches_region_metrics].
Qed.

Lemma C3_witness :
  (exists r,
      compute example_binary64 150%float = Ok r
      /\ breaches r
         = Z.of_nat (length (filter (fun s => ltb 150%float (latency_ms s) = true)
                               example_binary64)))
  /\ ltb 150%float 150%float = false.
Proof.
  exact (C3_breaches_counts_strictly_above float binary64 binary64_order
           example_binary64 150%float).
Defined.

(** C4.  On the empty sequence the calculator returns the metrics
    {avg_latency: 0, p95_latency: 0, avg_uptime: 0, breaches: 0} for every
    threshold, and raises nothing. *)
Theorem C4_empty_gives_zero_metrics :
  forall (F : Type) (A : Arith F) (threshold : F),
    calculate_metrics [] threshold
    = Ok {| avg_latency := of_Z 0; p95_latency := of_Z 0;
            avg_uptime := of_Z 0; breaches := 0 |}
    /\ compute [] threshold = calculate_metrics [] threshold.
Proof. intros F A threshold. split; reflexivity. Qed.

(** C8.  With the samples fixed, breaches does not increase when the
    threshold increases. *)
Theorem C8_breaches_antitone_in_threshold :
  forall (F : Type) (A : Arith F) (O : ArithOrder F)
         (samples : list (Sample F)) (t1 t2 : F),
    leb t1 t2 = true ->
    exists r1 r2,
      compute samples t1 = Ok r1 /\ compute samples t2 = Ok r2
      /\ breaches r2 <= breaches r1.
Proof.
  intros F A O samples t1 t2 Hle.
  exists (region_metrics samples t1), (region_metrics samples t2).
  split; [apply compute_ok|]. split; [apply compute_ok|].
  by apply breaches_antitone.
Qed.

Lemma C8_witness :
  exists r1 r2,
    compute example_binary64 140%float = Ok r1
    /\ compute example_binary64 160%float = Ok r2
    /\ breaches r2 <= breaches r1.
Proof.
  apply (C8_breaches_antitone_in_threshold float binary64 binary64_order
           example_binary64 140%float 160%float).
  vm_compute. reflexivity.
Defined.

(** ** Dispatch *)

(** C5.  For every dataset, request and requested region, the dispatch
    stores the metrics of the region's samples when the region is in the
    dataset, and otherwise the zero metrics, the same as for an empty
    sequence of samples; nothing is stored for a region not requested. *)
Theorem C5_dispatch_per_region :
  forall (F : Type) (A : Arith F) (dataset : gmap string (list (Sample F)))
         (request : MetricsRequest F),
    exists results,
      get_metrics (telemetry_of dataset) request = Ok results
      /\ (forall region, region ∈ regions request ->
            match dataset !! region with
            | Some samples =>
                exists m, results !! region = Some m
                          /\ compute samples (threshold_ms request) = Ok m
            | None =>
                results !! region
                = Some {| avg_latency := of_Z 0; p95_latency := of_Z 0;
                          avg_uptime := of_Z 0; breaches := 0 |}
                /\ compute [] (threshold_ms request)
                   = Ok {| avg_latency := of_Z 0; p95_latency := of_Z 0;
                           avg_uptime := of_Z 0; breaches := 0 |}
            end)
      /\ (forall region, region ∉ regions request -> results !! region = None).
Proof.
  intros F A dataset request. eexists. split; [apply get_metrics_ok|].
  split; intros region Hin; rewrite lookup_foldl_insert.
  - rewrite decide_True by exact Hin. unfold dispatch.
    destruct (dataset !! region) as [samples|].
    + eexists. split; [reflexivity | apply compute_ok].
    + split; reflexivity.
  - rewrite decide_False by exact Hin. apply lookup_empty.
Qed.

Lemma C5_witness :
  exists results,
    get_metrics (telemetry_of {["emea" := example_binary64]})
      {| regions := ["emea"; "apac"]; threshold_ms := 140%float |} = Ok results
    /\ results !! "emea"
       = Some {| avg_latency := 150%float; p95_latency := 195%float;
                 avg_uptime := 0.95%float; breaches := 2 |}
    /\ results !! "apac"
       = Some {| avg_latency := 0%float; p95_latency := 0%float;
                 avg_uptime := 0%float; breaches := 0 |}.
Proof.
  destruct (C5_dispatch_per_region float binary64 {["emea" := example_binary64]}
              {| regions := ["emea"; "apac"]; threshold_ms := 140%float |})
    as (results & Hget & Hin & _).
  exists results. split; [exact Hget|]. split.
  - specialize (Hin "emea"). rewrite lookup_singleton_eq in Hin.
    destruct Hin as (m & Hm & Hc).
    + cbn [regions]. apply list_elem_of_here.
    + rewrite Hm. cbn [threshold_ms] in Hc.
      rewrite example_binary64_metrics in Hc. congruence.
  - specialize (Hin "apac"). rewrite lookup_singleton_ne in Hin by done.
    apply Hin. cbn [regions]. apply list_elem_of_further, list_elem_of_here.
Defined.

(** ** Totality *)

(** C10.  On records that each have a latency_ms and an uptime field,
    calculate_metrics returns metrics and raises nothing; and on any records
    whatever it never applies the mean or the percentile to an empty list:
    the empty case is answered before either is computed. *)
Theorem C10_total_on_well_formed :
  forall (F : Type) (A : Arith F) (data : list (Dict F)) (threshold : F),
    (Forall well_formed data -> exists r, calculate_metrics data threshold = Ok r)
    /\ calculate_metrics data threshold <> Raise EmptyArray.
Proof.
  intros F A data threshold. split; [apply calculate_metrics_well_formed|].
  destruct (calculate_metrics_cases data threshold) as [[r ->] | [key ->]];
    discriminate.
Qed.

Lemma C10_witness :
  (exists r, calculate_metrics (record_of <$> example_binary64) 140%float = Ok r)
  /\ calculate_metrics (record_of <$> example_binary64) 140%float <> Raise EmptyArray.
Proof.
  destruct (C10_total_on_well_formed float binary64
              (record_of <$> example_binary64) 140%float) as [Hok Hne].
  split; [|exact Hne]. apply Hok.
  repeat constructor; vm_compute; eexists; reflexivity.
Defined.

(** ** Bounds

    The specification says that avg_latency and avg_uptime lie between the
    least and the greatest input, and that p95_latency is at most the
    greatest latency.  The rounding to 2 decimals alone takes the result
    out of that range, as the two examples show. *)

Example avg_below_the_least_input :
  exists r, compute [fine_binary64] 0%float = Ok r
            /\ PrimFloat.ltb (avg_latency r) (latency_ms fine_binary64) = true
            /\ PrimFloat.ltb (avg_uptime r) (uptime fine_binary64) = true.
Proof.
  eexists. split; [apply compute_ok|]. split; vm_compute; reflexivity.
Qed.

Example p95_above_the_greatest_input :
  exists r, compute [above_binary64] 0%float = Ok r
            /\ PrimFloat.ltb (latency_ms above_binary64) (p95_latency r) = true.
Proof. eexists. split; [apply compute_ok|]. vm_compute. reflexivity. Qed.

(** ** Order of the samples *)

(** C9, counterexample.  Float64 addition is not associative, and the mean
    adds the values in the order given: the latencies 1, 1e16, -1e16 sum to 0
    (the 1 is lost in 1e16), while 1e16, -1e16, 1 sum to 1.  The two
    sequences are permutations of each other, and their avg_latency is 0.0
    for the first and 0.33 for the second. *)
Lemma C9_counterexample :
  order_a ≡ₚ order_b
  /\ (exists ra rb,
        compute order_a 0%float = Ok ra /\ compute order_b 0%float = Ok rb
        /\ avg_latency ra = 0%float /\ avg_latency rb = 0.33%float)
  /\ compute order_a 0%float <> compute order_b 0%float.
Proof.
  split; [|split].
  - unfold order_a, order_b.
    etrans; [apply perm_swap|]. apply perm_skip, perm_swap.
  - do 2 eexists. split; [apply compute_ok|]. split; [apply compute_ok|].
    split; vm_compute; reflexivity.
  - intros E.
    apply (f_equal (fun res => match res with
                               | Ok r => PrimFloat.eqb (avg_latency r) 0%float
                               | Raise _ => false
                               end)) in E.
    vm_compute in E. discriminate.
Qed.

(** C9, amended.  For every sequence of samples, every permutation of it
    and every threshold: breaches is the same on both, in every arithmetic;
    and in float64, on at most 2^49 samples, p95_latency is the same
    number on both (the same float, or 0.0 on one and -0.0 on the other), a
    nan among the latencies included.  avg_latency and avg_uptime can
    differ, as the counterexample shows. *)
Theorem C9_order_independent :
  (forall (F : Type) (A : Arith F) (samples samples' : list (Sample F))
          (threshold : F),
      samples ≡ₚ samples' ->
      exists r r',
        compute samples threshold = Ok r /\ compute samples' threshold = Ok r'
        /\ breaches r = breaches r')
  /\ (forall (samples samples' : list (Sample float)) (threshold : float),
      samples ≡ₚ samples' ->
      Z.of_nat (length samples) <= max_length ->
      exists r r',
        compute samples threshold = Ok r /\ compute samples' threshold = Ok r'
        /\ same_number (p95_latency r) (p95_latency r')
        /\ breaches r = breaches r').
Proof.
  split.
  - intros F A samples samples' threshold Hp. do 2 eexists.
    split; [apply compute_ok|]. split; [apply compute_ok|].
    by apply breaches_perm.
  - intros samples samples' threshold Hp Hlen. do 2 eexists.
    split; [apply compute_ok|]. split; [apply compute_ok|].
    split; [|by apply breaches_perm].
    destruct samples as [|s samples], samples' as [|s' samples'].
    + apply same_number_refl.
    + by apply Permutation_nil_cons in Hp.
    + symmetry in Hp. by apply Permutation_nil_cons in Hp.
    + cbn [region_metrics p95_latency]. apply round2_same.
      apply percentile_of_perm; [by apply fmap_Permutation|].
      rewrite length_fmap. cbn [length] in *. lia.
Qed.

Lemma C9_witness :
  exists r r',
    compute order_a 0%float = Ok r /\ compute order_b 0%float = Ok r'
    /\ same_number (p95_latency r) (p95_latency r')
    /\ breaches r = breaches r'.
Proof.
  destruct C9_order_independent as [_ Hfloat].
  apply (Hfloat order_a order_b 0%float).
  - unfold order_a, order_b.
    etrans; [apply perm_swap|]. apply perm_skip, perm_swap.
  - vm_compute. discriminate.
Defined.

(** * Part 4: further properties of the code *)

(** ** calculate_metrics: errors and what is read *)

Section Records.
Context {F : Type} `{Arith F}.

Lemma mapM_getitem_missing (key : string) (data : list (Dict F)) :
  Exists (fun record => record !! key = None) data ->
  mapM (fun record => getitem record key) data = Raise (KeyError key).
Proof.
  induction data as [|record data IH]; intros Hex; [by inversion Hex|].
  cbn [mapM].
  destruct (getitem_cases record key) as [(v & Hv & ->) | [_ ->]];
    cbn [mbind result_bind]; [|reflexivity].
  rewrite IH; [reflexivity|].
  inversion Hex as [? ? Hnone | ? ? Hrest]; subst; [congruence | exact Hrest].
Qed.

Lemma mapM_getitem_agree (key : string) (data data' : list (Dict F)) :
  Forall2 (fun record record' => record !! key = record' !! key) data data' ->
  mapM (fun record => getitem record key) data
  = mapM (fun record => getitem record key) data'.
Proof.
  induction 1 as [|record record' data data' Hkey _ IH]; [reflexivity|].
  assert (Hget : getitem record key = getitem record' key)
    by (unfold getitem; by rewrite Hkey).
  cbn [mapM]. rewrite Hget, IH. reflexivity.
Qed.

End Records.

(** X1.  A record without latency_ms makes the calculator raise
    KeyError('latency_ms'), whatever the other records and fields are; with
    latency_ms in every record, a record without uptime makes it raise
    KeyError('uptime').  All latencies are read before any uptime. *)
Theorem X1_missing_field_raises_KeyError :
  forall (F : Type) (A : Arith F) (data : list (Dict F)) (threshold : F),
    (Exists (fun record => record !! "latency_ms" = None) data ->
     calculate_metrics data threshold = Raise (KeyError "latency_ms"))
    /\ (Forall (fun record => is_Some (record !! "latency_ms")) data ->
        Exists (fun record => record !! "uptime" = None) data ->
        calculate_metrics data threshold = Raise (KeyError "uptime")).
Proof.
  intros F A data threshold. split.
  - intros Hex. destruct data as [|record data]; [by inversion Hex|].
    unfold calculate_metrics. by rewrite (mapM_getitem_missing "latency_ms").
  - intros Hall Hex. destruct data as [|record data]; [by inversion Hex|].
    unfold calculate_metrics.
    destruct (mapM_getitem_well_formed "latency_ms" _ Hall) as (latencies & -> & _).
    cbn [mbind result_bind]. by rewrite (mapM_getitem_missing "uptime").
Qed.

Lemma X1_witness :
  calculate_metrics [no_uptime; no_latency] 0%float = Raise (KeyError "latency_ms")
  /\ calculate_metrics [with_region; no_uptime] 0%float = Raise (KeyError "uptime").
Proof.
  split.
  - apply (X1_missing_field_raises_KeyError float binary64
             [no_uptime; no_latency] 0%float).
    apply Exists_cons_tl, Exists_cons_hd. reflexivity.
  - apply (X1_missing_field_raises_KeyError float binary64
             [with_region; no_uptime] 0%float).
    + repeat constructor; vm_compute; eexists; reflexivity.
    + apply Exists_cons_tl, Exists_cons_hd. reflexivity.
Defined.

(** X2.  The calculator reads the latency_ms and uptime fields and nothing
    else: two lists of records that agree, record by record, on these two
    fields (present or absent alike) get the same answer, be it metrics or a
    KeyError. *)
Theorem X2_only_two_fields_are_read :
  forall (F : Type) (A : Arith F) (data data' : list (Dict F)) (threshold : F),
    Forall2 (fun record record' =>
               record !! "latency_ms" = record' !! "latency_ms"
               /\ record !! "uptime" = record' !! "uptime") data data' ->
    calculate_metrics data threshold = calculate_metrics data' threshold.
Proof.
  intros F A data data' threshold Hagree.
  assert (Hl : Forall2 (fun r r' : Dict F => r !! "latency_ms" = r' !! "latency_ms")
                 data data')
    by (eapply Forall2_impl; [exact Hagree|]; by intros ? ? [? ?]).
  assert (Hu : Forall2 (fun r r' : Dict F => r !! "uptime" = r' !! "uptime")
                 data data')
    by (eapply Forall2_impl; [exact Hagree|]; by intros ? ? [? ?]).
  destruct Hagree as [|record record' data data' _ _]; [reflexivity|].
  unfold calculate_metrics.
  rewrite (mapM_getitem_agree "latency_ms" _ _ Hl).
  rewrite (mapM_getitem_agree "uptime" _ _ Hu). reflexivity.
Qed.

Lemma X2_witness :
  calculate_metrics [with_region] 50%float
  = calculate_metrics [record_of {| latency_ms := 100%float; uptime := 1%float |}]
      50%float.
Proof.
  apply (X2_only_two_fields_are_read float binary64).
  repeat constructor.
Defined.

(** ** Breaches *)

Section BreachCount.
Context {F : Type} `{Arith F}.

Lemma count_breaches_app (a b : list F) (threshold : F) :
  count_breaches (a ++ b) threshold
  = count_breaches a threshold + count_breaches b threshold.
Proof.
  rewrite !count_breaches_filter, filter_app, length_app. lia.
Qed.

Lemma count_breaches_range (a : list F) (threshold : F) :
  0 <= count_breaches a threshold <= Z.of_nat (length a).
Proof.
  rewrite count_breaches_filter.
  pose proof (length_filter (fun lat => ltb threshold lat = true) a). lia.
Qed.

End BreachCount.

(** X3.  Whenever the calculator returns metrics, for records of any shape,
    breaches is between 0 and the number of records. *)
Theorem X3_breaches_between_0_and_len :
  forall (F : Type) (A : Arith F) (data : list (Dict F)) (threshold : F)
         (r : RegionMetrics F),
    calculate_metrics data threshold = Ok r ->
    0 <= breaches r <= Z.of_nat (length data).
Proof.
  intros F A data threshold r Hr. destruct data as [|record data].
  - injection Hr as <-. cbn. lia.
  - unfold calculate_metrics in Hr.
    destruct (mapM_getitem_cases "latency_ms" (record :: data))
      as [(latencies & El & Hl) | El]; rewrite El in Hr; [|discriminate].
    destruct (mapM_getitem_cases "uptime" (record :: data))
      as [(uptimes & Eu & Hu) | Eu]; cbn [mbind result_bind] in Hr;
      rewrite Eu in Hr; [|discriminate].
    cbn [mbind result_bind] in Hr.
    destruct (np_mean latencies); [|discriminate].
    destruct (np_percentile latencies (of_Z 95)); [|discriminate].
    destruct (np_mean uptimes); [|discriminate].
    cbn [mbind result_bind] in Hr. injection Hr as <-. cbn [breaches].
    rewrite <- Hl. apply count_breaches_range.
Qed.

Lemma X3_witness :
  exists r, calculate_metrics [with_region; with_region] 50%float = Ok r
            /\ 0 <= breaches r <= 2.
Proof.
  eexists. split; [vm_compute; reflexivity|].
  apply (X3_breaches_between_0_and_len float binary64
           [with_region; with_region] 50%float).
  vm_compute. reflexivity.
Defined.

(** X4.  The breaches of two sequences of samples put together are the sum
    of the breaches of each, at the same threshold. *)
Theorem X4_breaches_add_up :
  forall (F : Type) (A : Arith F) (samples samples' : list (Sample F))
         (threshold : F),
    exists r r' r'',
      compute samples threshold = Ok r
      /\ compute samples' threshold = Ok r'
      /\ compute (samples ++ samples') threshold = Ok r''
      /\ breaches r'' = breaches r + breaches r'.
Proof.
  intros F A samples samples' threshold. do 3 eexists.
  split; [apply compute_ok|]. split; [apply compute_ok|].
  split; [apply compute_ok|].
  rewrite !breaches_region_metrics, filter_app, length_app. lia.
Qed.

(** ** Breaches and the latencies *)

(** X9.  In float64, when the latency of every sample grows or stays
    (sample by sample, the threshold fixed), breaches grows or stays. *)
Theorem X9_breaches_grow_with_the_latencies :
  forall (samples samples' : list (Sample float)) (threshold : float),
    Forall2 (fun s s' => PrimFloat.leb (latency_ms s) (latency_ms s') = true)
      samples samples' ->
    exists r r',
      compute samples threshold = Ok r
      /\ compute samples' threshold = Ok r'
      /\ breaches r <= breaches r'.
Proof.
  intros samples samples' threshold Hall. do 2 eexists.
  split; [apply compute_ok|]. split; [apply compute_ok|].
  rewrite !breaches_region_metrics. apply inj_le.
  induction Hall as [|s s' samples samples' Hs _ IH]; [reflexivity|].
  rewrite !filter_cons.
  destruct (decide (ltb threshold (latency_ms s) = true)) as [H1 | H1].
  - rewrite decide_True; [cbn [length]; lia|].
    cbn [ltb binary64] in *. by eapply ltb_leb_trans.
  - destruct (decide (ltb threshold (latency_ms s') = true)); cbn [length]; lia.
Qed.

Lemma X9_witness :
  exists r r',
    compute example_binary64 140%float = Ok r
    /\ compute [ {| latency_ms := 100; uptime := 1 |};
                 {| latency_ms := 170; uptime := 1 |};
                 {| latency_ms := 201; uptime := 1 |} ]%float 140%float = Ok r'
    /\ breaches r <= breaches r'.
Proof.
  apply X9_breaches_grow_with_the_latencies.
  repeat constructor.
Defined.

(** ** Not-a-number in binary64 *)

(** X5.  In float64, a nan is never a breach and a nan threshold is never
    breached: with a nan threshold breaches is 0, and a sample whose latency
    is nan leaves breaches as it is without that sample. *)
Theorem X5_nan_is_no_breach :
  (forall (samples : list (Sample float)) (threshold : float),
      PrimFloat.is_nan threshold = true ->
      exists r, compute samples threshold = Ok r /\ breaches r = 0)
  /\ (forall (s : Sample float) (samples : list (Sample float)) (threshold : float),
      PrimFloat.is_nan (latency_ms s) = true ->
      exists r r',
        compute (s :: samples) threshold = Ok r
        /\ compute samples threshold = Ok r'
        /\ breaches r = breaches r').
Proof.
  split.
  - intros samples threshold Hnan. apply is_nan_eq in Hnan as ->.
    eexists. split; [apply compute_ok|].
    rewrite breaches_region_metrics.
    induction samples as [|s samples IH]; [reflexivity|].
    rewrite filter_cons, decide_False; [exact IH|].
    cbn [ltb binary64]. by rewrite ltb_nan_l.
  - intros s samples threshold Hnan. apply is_nan_eq in Hnan.
    do 2 eexists. split; [apply compute_ok|]. split; [apply compute_ok|].
    rewrite !breaches_region_metrics, filter_cons, decide_False; [reflexivity|].
    cbn [ltb binary64]. by rewrite Hnan, ltb_nan_r.
Qed.

Lemma X5_witness :
  (exists r, compute example_binary64 PrimFloat.nan = Ok r /\ breaches r = 0)
  /\ (exists r r',
        compute ({| latency_ms := PrimFloat.nan; uptime := 1%float |}
                 :: example_binary64) 140%float = Ok r
        /\ compute example_binary64 140%float = Ok r'
        /\ breaches r = breaches r').
Proof.
  destruct X5_nan_is_no_breach as [Ht Hs]. split.
  - apply Ht. reflexivity.
  - apply Hs. reflexivity.
Defined.

(** X6.  In float64, one sample with a nan latency makes avg_latency nan,
    and one with a nan uptime makes avg_uptime nan, whatever the other
    samples are. *)
Theorem X6_nan_poisons_the_mean :
  forall (s : Sample float) (samples : list (Sample float)) (threshold : float),
    s ∈ samples ->
    exists r,
      compute samples threshold = Ok r
      /\ (PrimFloat.is_nan (latency_ms s) = true -> avg_latency r = PrimFloat.nan)
      /\ (PrimFloat.is_nan (uptime s) = true -> avg_uptime r = PrimFloat.nan).
Proof.
  intros s samples threshold Hin. eexists. split; [apply compute_ok|].
  destruct samples as [|s0 samples]; [by inversion Hin|].
  cbn [region_metrics avg_latency avg_uptime].
  split; intros Hnan; apply is_nan_eq in Hnan;
    rewrite mean_of_has_nan; try apply round2_nan;
    rewrite <- Hnan; by apply list_elem_of_fmap_2.
Qed.

Lemma X6_witness :
  exists r,
    compute (example_binary64
             ++ [ {| latency_ms := PrimFloat.nan; uptime := 1%float |} ]) 140%float
    = Ok r
    /\ avg_latency r = PrimFloat.nan.
Proof.
  destruct (X6_nan_poisons_the_mean
              {| latency_ms := PrimFloat.nan; uptime := 1%float |}
              (example_binary64
               ++ [ {| latency_ms := PrimFloat.nan; uptime := 1%float |} ])
              140%float) as (r & Hr & Hl & _).
  - apply elem_of_app. right. apply list_elem_of_here.
  - exists r. split; [exact Hr|]. apply Hl. reflexivity.
Defined.

Section GetMetrics.
Context {F : Type} `{Arith F}.

Local Abbreviation step telemetry threshold :=
  (fun (acc : result (gmap string (RegionMetrics F))) (region : string) =>
     results ← acc;
     m ← region_result telemetry threshold region;
     Ok (<[region := m]> results)).

Lemma foldl_ext_eq {A B} (f g : A -> B -> A) (l : list B) (a : A) :
  (forall a x, f a x = g a x) -> foldl f a l = foldl g a l.
Proof.
  intros Hfg. revert a. induction l as [|x l IH]; intros a; [reflexivity|].
  cbn [foldl]. by rewrite Hfg, IH.
Qed.

(** The loop of [get_metrics], one [region_result] after another. *)
Lemma get_metrics_loop telemetry (request : MetricsRequest F) :
  get_metrics telemetry request
  = foldl (step telemetry (threshold_ms request))
      (Ok ∅) (regions request).
Proof.
  unfold get_metrics. apply foldl_ext_eq. intros [results | e] region;
    cbn [mbind result_bind]; [|reflexivity].
  unfold region_result. by destruct (telemetry !! region).
Qed.

Lemma loop_raise telemetry (threshold : F) (e : exn) (l : list string) :
  foldl (step telemetry threshold)
    (Raise e) l
  = Raise e.
Proof. induction l as [|region l IH]; [reflexivity | exact IH]. Qed.

Lemma loop_ok telemetry (threshold : F) (l : list string)
    (acc : gmap string (RegionMetrics F)) :
  Forall (fun region => exists m, region_result telemetry threshold region = Ok m) l ->
  exists results,
    foldl (step telemetry threshold)
      (Ok acc) l
    = Ok results
    /\ (forall region, region ∈ l ->
          exists m, results !! region = Some m
                    /\ region_result telemetry threshold region = Ok m)
    /\ (forall region, region ∉ l -> results !! region = acc !! region).
Proof.
  intros Hall. revert acc.
  induction Hall as [|x l [m0 Hm0] _ IH]; intros acc.
  - exists acc. split; [reflexivity|]. split; [|done].
    intros region Hin. by apply elem_of_nil in Hin.
  - cbn [foldl mbind result_bind]. rewrite Hm0.
    destruct (IH (<[x := m0]> acc)) as (results & Hfold & Hin & Hout).
    exists results. split; [exact Hfold|]. split.
    + intros region Hreg. destruct (decide (region ∈ l)) as [Hl | Hl];
        [by apply Hin|].
      apply elem_of_cons in Hreg as [-> | Hreg]; [|done].
      exists m0. by rewrite (Hout x Hl), lookup_insert_eq.
    + intros region Hreg. apply not_elem_of_cons in Hreg as [Hne Hl].
      by rewrite (Hout region Hl), lookup_insert_ne.
Qed.

Lemma loop_first_failure telemetry (threshold : F) (l1 l2 : list string)
    (region : string) (e : exn) (acc : gmap string (RegionMetrics F)) :
  Forall (fun region => exists m, region_result telemetry threshold region = Ok m) l1 ->
  region_result telemetry threshold region = Raise e ->
  foldl (step telemetry threshold)
    (Ok acc) (l1 ++ region :: l2)
  = Raise e.
Proof.
  intros Hall He. rewrite foldl_app.
  destruct (loop_ok telemetry threshold l1 acc Hall) as (results & -> & _).
  cbn [foldl mbind result_bind]. rewrite He. apply loop_raise.
Qed.

(** Either the calculator answers for every region of a list, or there is a
    first region for which it raises. *)
Lemma first_failure telemetry (threshold : F) (l : list string) :
  Forall (fun region => exists m, region_result telemetry threshold region = Ok m) l
  \/ exists l1 region l2 e,
       l = l1 ++ region :: l2
       /\ Forall (fun region => exists m, region_result telemetry threshold region = Ok m) l1
       /\ region_result telemetry threshold region = Raise e.
Proof.
  induction l as [|x l IH]; [by left|].
  destruct (region_result telemetry threshold x) as [m | e] eqn:Ex.
  - destruct IH as [Hall | (l1 & region & l2 & e & -> & Hall & He)].
    + left. constructor; [by eexists | exact Hall].
    + right. exists (x :: l1), region, l2, e.
      split; [reflexivity|]. split; [|exact He].
      constructor; [by eexists | exact Hall].
  - right. exists [], x, l, e. split; [reflexivity|]. split; [constructor | exact Ex].
Qed.

Lemma get_metrics_ok_inv telemetry (request : MetricsRequest F) results :
  get_metrics telemetry request = Ok results ->
  Forall (fun region =>
            exists m, region_result telemetry (threshold_ms request) region = Ok m)
    (regions request).
Proof.
  intros Hget.
  destruct (first_failure telemetry (threshold_ms request) (regions request))
    as [Hall | (l1 & region & l2 & e & Hl & Hall & He)]; [exact Hall|].
  rewrite get_metrics_loop, Hl, (loop_first_failure _ _ _ _ _ _ _ Hall He) in Hget.
  discriminate.
Qed.

Lemma elem_of_keys {V} (m : gmap string V) (k : string) :
  k ∈ (map_to_list m).*1 <-> is_Some (m !! k).
Proof.
  rewrite list_elem_of_fmap. split.
  - intros ([k' v] & -> & Hin). apply elem_of_map_to_list in Hin. by eexists.
  - intros [v Hv]. exists (k, v). split; [reflexivity|].
    by apply elem_of_map_to_list.
Qed.

End GetMetrics.

(** X11.  get_metrics answers all or nothing.  When the calculator answers
    for every requested region, the response holds each requested region
    with the metrics of its records (the zero metrics for a region the
    dataset lacks) and no other region; when it raises for a requested
    region, the request raises the error of the first such region of the
    list, and there is no response for the regions before it. *)
Theorem X11_get_metrics_all_or_nothing :
  forall (F : Type) (A : Arith F) (telemetry : gmap string (list (Dict F)))
         (request : MetricsRequest F),
    ((forall region, region ∈ regions request ->
        exists m, region_result telemetry (threshold_ms request) region = Ok m) ->
     exists results,
       get_metrics telemetry request = Ok results
       /\ (forall region, region ∈ regions request ->
             exists m, results !! region = Some m
                       /\ region_result telemetry (threshold_ms request) region = Ok m)
       /\ (forall region, region ∉ regions request -> results !! region = None))
    /\ (forall l1 region l2 e,
          regions request = l1 ++ region :: l2 ->
          (forall region', region' ∈ l1 ->
             exists m, region_result telemetry (threshold_ms request) region' = Ok m) ->
          region_result telemetry (threshold_ms request) region = Raise e ->
          get_metrics telemetry request = Raise e).
Proof.
  intros F A telemetry request. split.
  - intros Hall. rewrite get_metrics_loop.
    destruct (loop_ok telemetry (threshold_ms request) (regions request) ∅)
      as (results & Hfold & Hin & Hout); [by apply Forall_forall|].
    exists results. split; [exact Hfold|]. split; [exact Hin|].
    intros region Hreg. by rewrite (Hout region Hreg), lookup_empty.
  - intros l1 region l2 e Hl Hall He. rewrite get_metrics_loop, Hl.
    apply loop_first_failure; [by apply Forall_forall | exact He].
Qed.

Lemma X11_witness :
  get_metrics {["emea" := [with_region]; "apac" := [no_uptime]]}
    {| regions := ["emea"; "apac"; "emea"]; threshold_ms := 50%float |}
  = Raise (KeyError "uptime").
Proof.
  destruct (X11_get_metrics_all_or_nothing float binary64
              {["emea" := [with_region]; "apac" := [no_uptime]]}
              {| regions := ["emea"; "apac"; "emea"]; threshold_ms := 50%float |})
    as [_ Hraise].
  apply (Hraise ["emea"] "apac" ["emea"]).
  - reflexivity.
  - intros region Hin. apply list_elem_of_singleton in Hin as ->.
    eexists. vm_compute. reflexivity.
  - vm_compute. reflexivity.
Defined.

(** X12.  The response depends on which regions are requested, not on their
    order or on how often each is named: two requests with the same threshold
    and the same set of regions get the same response. *)
Theorem X12_response_ignores_order_and_repeats :
  forall (F : Type) (A : Arith F) (telemetry : gmap string (list (Dict F)))
         (request request' : MetricsRequest F)
         (results : gmap string (RegionMetrics F)),
    threshold_ms request = threshold_ms request' ->
    (forall region, region ∈ regions request <-> region ∈ regions request') ->
    get_metrics telemetry request = Ok results ->
    get_metrics telemetry request' = Ok results.
Proof.
  intros F A telemetry request request' results Ht Hsame Hget.
  pose proof (get_metrics_ok_inv _ _ _ Hget) as Hall.
  rewrite get_metrics_loop in Hget.
  destruct (loop_ok telemetry (threshold_ms request) (regions request) ∅ Hall)
    as (results0 & Hget0 & Hin & Hout).
  assert (results0 = results) as -> by congruence.
  rewrite Forall_forall in Hall. rewrite get_metrics_loop.
  destruct (loop_ok telemetry (threshold_ms request') (regions request') ∅)
    as (results' & -> & Hin' & Hout').
  { apply Forall_forall. intros region Hreg. rewrite <- Ht.
    by apply Hall, Hsame. }
  f_equal. apply map_eq. intros region.
  destruct (decide (region ∈ regions request)) as [Hreg | Hreg].
  - destruct (Hin region Hreg) as (m & -> & Hm).
    destruct (Hin' region) as (m' & -> & Hm'); [by apply Hsame|].
    rewrite <- Ht in Hm'. congruence.
  - rewrite (Hout region Hreg), Hout'; [reflexivity|].
    by rewrite <- Hsame.
Qed.

Lemma X12_witness :
  get_metrics {["emea" := [with_region]]}
    {| regions := ["apac"; "emea"; "apac"]; threshold_ms := 50%float |}
  = get_metrics {["emea" := [with_region]]}
      {| regions := ["emea"; "apac"]; threshold_ms := 50%float |}.
Proof.
  destruct (get_metrics {["emea" := [with_region]]}
              {| regions := ["emea"; "apac"]; threshold_ms := 50%float |})
    as [results | e] eqn:E; [|vm_compute in E; discriminate].
  apply (X12_response_ignores_order_and_repeats float binary64 _
           {| regions := ["emea"; "apac"]; threshold_ms := 50%float |} _ results).
  - reflexivity.
  - intros region. cbn [regions]. rewrite !elem_of_cons, !elem_of_nil. tauto.
  - exact E.
Defined.

(** ** The loader and the root endpoint *)

(** X13.  The dataset is read from q-vercel-latency.json in the directory
    above the one of the module (api/): when that file is there and parses,
    the dataset is its content; when it is missing or does not parse, the
    service runs on the empty dataset: the root endpoint lists no region, and
    every request is answered, with the zero metrics for every requested
    region. *)
Theorem X13_load_failure_gives_zero_metrics :
  forall (F : Type) (A : Arith F)
         (read_file : list string -> option string)
         (json_load : string -> option (gmap string (list (Dict F))))
         (base : list string),
    let telemetry :=
      load_telemetry_data read_file json_load (base ++ ["api"; "index.py"]) in
    let data_path := base ++ ["q-vercel-latency.json"] in
    (forall text data,
        read_file data_path = Some text -> json_load text = Some data ->
        telemetry = data)
    /\ (read_file data_path = None
        \/ (exists text, read_file data_path = Some text /\ json_load text = None) ->
        available_regions (root telemetry) = []
        /\ forall request : MetricsRequest F,
             exists results,
               get_metrics telemetry request = Ok results
               /\ forall region, region ∈ regions request ->
                    results !! region
                    = Some {| avg_latency := of_Z 0; p95_latency := of_Z 0;
                              avg_uptime := of_Z 0; breaches := 0 |}).
Proof.
  intros F A read_file json_load base telemetry data_path.
  assert (Hpath : join (dirname (dirname (base ++ ["api"; "index.py"])))
                    "q-vercel-latency.json" = data_path).
  { unfold join, dirname.
    change (base ++ ["api"; "index.py"]) with (base ++ ["api"] ++ ["index.py"]).
    by rewrite app_assoc, !removelast_last. }
  split.
  - intros text data Hread Hparse. subst telemetry. unfold load_telemetry_data.
    by rewrite Hpath, Hread, Hparse.
  - intros Hfail.
    assert (Hempty : telemetry = ∅).
    { subst telemetry. unfold load_telemetry_data. rewrite Hpath.
      destruct Hfail as [-> | (text & -> & ->)]; reflexivity. }
    rewrite Hempty. split; [reflexivity|].
    intros request. rewrite get_metrics_loop.
    destruct (loop_ok (∅ : gmap string (list (Dict F))) (threshold_ms request)
                (regions request) ∅) as (results & -> & Hin & _).
    { apply Forall_forall. intros region _. unfold region_result.
      rewrite lookup_empty. by eexists. }
    exists results. split; [reflexivity|].
    intros region Hreg. destruct (Hin region Hreg) as (m & -> & Hm).
    unfold region_result in Hm. rewrite lookup_empty in Hm.
    injection Hm as <-. reflexivity.
Qed.

Lemma X13_witness :
  let telemetry : gmap string (list (Dict float)) :=
    load_telemetry_data (fun _ => None) (fun _ => None) ["srv"; "api"; "index.py"] in
  available_regions (root telemetry) = []
  /\ forall request : MetricsRequest float,
       exists results,
         get_metrics telemetry request = Ok results
         /\ forall region, region ∈ regions request ->
              results !! region
              = Some {| avg_latency := 0%float; p95_latency := 0%float;
                        avg_uptime := 0%float; breaches := 0 |}.
Proof.
  destruct (X13_load_failure_gives_zero_metrics float binary64
              (fun _ => None) (fun _ => None) ["srv"]) as [_ Hfail].
  apply Hfail. left. reflexivity.
Defined.

(** X14.  The root endpoint lists each region of the dataset once and no
    other; and a request for the regions it lists is answered with the
    metrics of every region of the dataset, computed from its samples. *)
Theorem X14_root_lists_the_regions :
  forall (F : Type) (A : Arith F),
    (forall (telemetry : gmap string (list (Dict F))),
        NoDup (available_regions (root telemetry))
        /\ forall region, region ∈ available_regions (root telemetry)
                          <-> is_Some (telemetry !! region))
    /\ (forall (dataset : gmap string (list (Sample F))) (threshold : F),
          get_metrics (telemetry_of dataset)
            {| regions := available_regions (root (telemetry_of dataset));
               threshold_ms := threshold |}
          = Ok ((fun samples => region_metrics samples threshold) <$> dataset)).
Proof.
  intros F A. split.
  - intros telemetry. split; [apply NoDup_fst_map_to_list | apply elem_of_keys].
  - intros dataset threshold. rewrite get_metrics_ok. f_equal.
    apply map_eq. intros region. cbn [regions threshold_ms].
    rewrite lookup_foldl_insert, lookup_fmap.
    destruct (decide (region ∈ available_regions (root (telemetry_of dataset))))
      as [Hin | Hin]; unfold root in Hin; cbn [available_regions] in Hin;
      rewrite elem_of_keys in Hin; unfold telemetry_of in Hin;
      rewrite lookup_fmap in Hin.
    + unfold dispatch. destruct (dataset !! region); [reflexivity|].
      by destruct Hin.
    + destruct (dataset !! region); [|by rewrite lookup_empty].
      destruct Hin. by eexists.
Qed.
